(** * configtls: certificate reloading and TLS configuration assembly

    A shallow embedding of package [configtls] (TLSSetting,
    TLSClientSetting, TLSServerSetting, certReloader, convertVersion) and
    the properties of its reload logic and of its configuration builders.

    Conventions of the embedding.
    - A Go function returning [(T, error)] returns a pair here; a pointer
      result is an [option] ([None] is [nil]), and so is the [error].
    - Reading the clock and the disk are effects: a computation of type
      [M A] receives the environment of the call (the instant [time.Now]
      reports, the contents of the disk, the file-watch facility) and
      returns its value with the list of the I/O events it performed.
    - A method with a pointer receiver that assigns to the receiver's
      fields returns the receiver's new state next to its results.
    - What [crypto/tls], [crypto/x509] and [path/filepath] compute is a
      parameter of the development, class [CryptoLib]. *)

From Stdlib Require Import ZArith List Lia Bool.
From stdpp Require Import base gmap strings.
Import ListNotations.
Open Scope Z_scope.

(** ** Errors, time, effects *)

(** [[]byte] *)
Definition bytes : Type := list Byte.byte.

(** Go's [error] values, by the call that builds them. *)
Inductive error : Type :=
| errors_New (msg : string)
    (* errors.New(msg) *)
| fmt_Errorf_w (msg : string) (cause : error)
    (* fmt.Errorf(msg + ": %w", cause) *)
| fmt_Errorf_s (msg : string) (arg : string)
    (* fmt.Errorf(msg + " %s", arg) *)
| fmt_Errorf_s_w (msg : string) (arg : string) (cause : error)
    (* fmt.Errorf(msg + " %s: %w", arg, cause) *)
| fmt_Errorf_q (msg : string) (arg : string)
    (* fmt.Errorf(msg + ": %q", arg) *)
| lib_error (msg : string)
    (* an error raised by os, crypto/tls or the file watcher *)
| TrustStoreLoadError (cause : error)
    (* the spec's name for a failed construction of the client-CA reloader *)
| runtime_panic (msg : string).
    (* not an error value: the call panicked (nil pointer dereference) *)

(** [time.Time], an instant in nanoseconds on the process clock, and
    [time.Duration], a number of nanoseconds. Instants are compared by
    their monotonic reading, which [Add] carries along; the bounds of
    Go's representation of instants are not modelled. *)
Definition Time : Type := Z.
Definition Duration : Type := Z.

Definition Time_Add (t : Time) (d : Duration) : Time := t + d.
Definition Time_Before (t u : Time) : bool := t <? u.

(** The environment of one call. *)
Record Env : Type := {
  Now : Time;                            (* what time.Now() returns *)
  Disk : string -> bytes + error;        (* what os.ReadFile(path) returns *)
  Watcher : string -> option error       (* whether a watch on path can start *)
}.

Inductive Event : Type :=
| EvReadFile (path : string)
| EvStartWatch (path : string).

Definition M (A : Type) : Type := Env -> A * list Event.

Definition ret {A : Type} (a : A) : M A := fun _ => (a, []).

Definition bind {A B : Type} (m : M A) (k : A -> M B) : M B :=
  fun env =>
    let '(a, t1) := m env in
    let '(b, t2) := k a env in
    (b, t1 ++ t2).

Notation "x <- m ;; k" := (bind m (fun x => k))
  (at level 100, m at next level, right associativity).

Definition time_Now : M Time := fun env => (Now env, []).

Definition os_ReadFile (path : string) : M (bytes + error) :=
  fun env => (Disk env path, [EvReadFile path]).

(** The value and the events of a computation in an environment. *)
Definition value {A : Type} (m : M A) (env : Env) : A := fst (m env).
Definition events {A : Type} (m : M A) (env : Env) : list Event := snd (m env).

(** ** The libraries the package calls *)

Class CryptoLib : Type := {
  Certificate : Type;                                      (* tls.Certificate *)
  CertPool : Type;                                         (* x509.CertPool *)
  X509KeyPair : bytes -> bytes -> Certificate + error;     (* tls.X509KeyPair *)
  NewCertPool : CertPool;                                  (* x509.NewCertPool *)
  AppendCertsFromPEM : CertPool -> bytes -> CertPool * bool;
  filepath_Clean : string -> string
}.

(** [tls.LoadX509KeyPair]: reads the certificate file, then the key file,
    then parses the pair. *)
Definition tls_LoadX509KeyPair `{CryptoLib} (certFile keyFile : string)
  : M (Certificate + error) :=
  certPEMBlock <- os_ReadFile certFile ;;
  match certPEMBlock with
  | inr err => ret (inr err)
  | inl certPEM =>
      keyPEMBlock <- os_ReadFile keyFile ;;
      match keyPEMBlock with
      | inr err => ret (inr err)
      | inl keyPEM => ret (X509KeyPair certPEM keyPEM)
      end
  end.

(** ** Settings *)

Record TLSSetting : Type := {
  CAFile : string;
  CertFile : string;
  KeyFile : string;
  MinVersion : string;
  MaxVersion : string;
  ReloadInterval : Duration
}.

Record TLSClientSetting : Type := {
  ClientTLSSetting : TLSSetting;     (* the embedded TLSSetting *)
  Insecure : bool;
  InsecureSkipVerify : bool;
  ServerName : string
}.

Record TLSServerSetting : Type := {
  ServerTLSSetting : TLSSetting;     (* the embedded TLSSetting *)
  ClientCAFile : string;
  ReloadClientCAFile : bool
}.

(** ** certReloader *)

Module certReloader.
Record t `{CryptoLib} : Type := Build {
  CertFile : string;
  KeyFile : string;
  ReloadInterval : Duration;
  nextReload : Time;
  cert : option Certificate          (* *tls.Certificate *)
}.
End certReloader.

Definition newCertReloader `{CryptoLib}
    (certFile keyFile : string) (reloadInterval : Duration)
  : M (option certReloader.t * option error) :=
  loaded <- tls_LoadX509KeyPair certFile keyFile ;;
  match loaded with
  | inr err => ret (None, Some err)
  | inl cert =>
      now <- time_Now ;;
      ret (Some {| certReloader.CertFile := certFile;
                   certReloader.KeyFile := keyFile;
                   certReloader.ReloadInterval := reloadInterval;
                   certReloader.nextReload := Time_Add now reloadInterval;
                   certReloader.cert := Some cert |},
           None)
  end.

(** Whether [GetCertificate] takes its reloading branch at instant [now]. *)
Definition reloadDue `{CryptoLib} (r : certReloader.t) (now : Time) : bool :=
  negb (certReloader.ReloadInterval r =? 0)
  && Time_Before (certReloader.nextReload r) now.

(** [GetCertificate] run by one caller alone: the lock operations have no
    effect then and are left out (they are steps of the interleaving
    model further down). The third component is the receiver after the
    call. *)
Definition GetCertificate `{CryptoLib} (r : certReloader.t)
  : M (option Certificate * option error * certReloader.t) :=
  now <- time_Now ;;
  if reloadDue r now then
    loaded <- tls_LoadX509KeyPair (certReloader.CertFile r) (certReloader.KeyFile r) ;;
    match loaded with
    | inr err =>
        ret (None, Some (fmt_Errorf_w "failed to load TLS cert and key" err), r)
    | inl cert =>
        let r' := {| certReloader.CertFile := certReloader.CertFile r;
                     certReloader.KeyFile := certReloader.KeyFile r;
                     certReloader.ReloadInterval := certReloader.ReloadInterval r;
                     certReloader.nextReload :=
                       Time_Add now (certReloader.ReloadInterval r);
                     certReloader.cert := Some cert |} in
        ret (certReloader.cert r', None, r')
    end
  else ret (certReloader.cert r, None, r).

(** ** The client-CA reloader *)

(** Modelled from the spec: the type [clientCAsFileReloader] and its
    functions [newClientCAsReloader], [startWatching] and
    [getClientConfig] are called by [TLSServerSetting.LoadTLSConfig] but
    their file is not among the sources. The spec (4.3) gives the state as
    the CA file path, the cached trust pool and the background watch task;
    [loader] is the owning server policy the constructor is given. *)
Record clientCAsFileReloader `{CryptoLib} : Type := {
  clientCAsFile : string;
  certPool : option CertPool;         (* *x509.CertPool *)
  loader : TLSServerSetting;
  watching : bool                     (* whether the watch task runs *)
}.

(** ** Protocol versions and the assembled configuration *)

Module tls.
(** The version constants of [crypto/tls] ([uint16]). *)
Definition VersionTLS10 : Z := 0x0301.
Definition VersionTLS11 : Z := 0x0302.
Definition VersionTLS12 : Z := 0x0303.
Definition VersionTLS13 : Z := 0x0304.

(** [tls.ClientAuthType]; [NoClientCert] is its zero value. *)
Inductive ClientAuthType : Type :=
| NoClientCert
| RequestClientCert
| RequireAnyClientCert
| VerifyClientCertIfGiven
| RequireAndVerifyClientCert.

(** The fields of [tls.Config] the package assigns. A callback field
    holds the reloader its closure captured ([None]: the field is nil). *)
Record Config `{CryptoLib} : Type := Build {
  RootCAs : option CertPool;
  GetCertificate : option certReloader.t;
  GetClientCertificate : option certReloader.t;
  MinVersion : Z;
  MaxVersion : Z;
  ServerName : string;
  InsecureSkipVerify : bool;
  GetConfigForClient : option clientCAsFileReloader;
  ClientCAs : option CertPool;
  ClientAuth : ClientAuthType
}.

Definition set_ServerName `{CryptoLib} (cfg : Config) (v : string) : Config :=
  Build _ (RootCAs cfg) (GetCertificate cfg) (GetClientCertificate cfg)
    (MinVersion cfg) (MaxVersion cfg) v (InsecureSkipVerify cfg)
    (GetConfigForClient cfg) (ClientCAs cfg) (ClientAuth cfg).

Definition set_InsecureSkipVerify `{CryptoLib} (cfg : Config) (v : bool) : Config :=
  Build _ (RootCAs cfg) (GetCertificate cfg) (GetClientCertificate cfg)
    (MinVersion cfg) (MaxVersion cfg) (ServerName cfg) v
    (GetConfigForClient cfg) (ClientCAs cfg) (ClientAuth cfg).

Definition set_GetConfigForClient `{CryptoLib} (cfg : Config)
    (v : option clientCAsFileReloader) : Config :=
  Build _ (RootCAs cfg) (GetCertificate cfg) (GetClientCertificate cfg)
    (MinVersion cfg) (MaxVersion cfg) (ServerName cfg) (InsecureSkipVerify cfg)
    v (ClientCAs cfg) (ClientAuth cfg).

Definition set_ClientCAs `{CryptoLib} (cfg : Config) (v : option CertPool) : Config :=
  Build _ (RootCAs cfg) (GetCertificate cfg) (GetClientCertificate cfg)
    (MinVersion cfg) (MaxVersion cfg) (ServerName cfg) (InsecureSkipVerify cfg)
    (GetConfigForClient cfg) v (ClientAuth cfg).

Definition set_ClientAuth `{CryptoLib} (cfg : Config) (v : ClientAuthType) : Config :=
  Build _ (RootCAs cfg) (GetCertificate cfg) (GetClientCertificate cfg)
    (MinVersion cfg) (MaxVersion cfg) (ServerName cfg) (InsecureSkipVerify cfg)
    (GetConfigForClient cfg) (ClientCAs cfg) v.
End tls.

Definition defaultMinTLSVersion : Z := tls.VersionTLS12.
Definition defaultMaxTLSVersion : Z := 0.

Definition tlsVersions : gmap string Z :=
  {[ "1.0" := tls.VersionTLS10;
     "1.1" := tls.VersionTLS11;
     "1.2" := tls.VersionTLS12;
     "1.3" := tls.VersionTLS13 ]}.

Definition convertVersion (v : string) (defaultVersion : Z) : Z * option error :=
  if String.eqb v "" then (defaultVersion, None)
  else
    match tlsVersions !! v with
    | None => (0, Some (fmt_Errorf_q "unsupported TLS version" v))
    | Some val => (val, None)
    end.

(** ** Building the configuration *)

Definition TLSSetting_loadCert `{CryptoLib} (c : TLSSetting) (caPath : string)
  : M (option CertPool * option error) :=
  caPEM <- os_ReadFile (filepath_Clean caPath) ;;
  match caPEM with
  | inr err => ret (None, Some (fmt_Errorf_s_w "failed to load CA" caPath err))
  | inl pem =>
      let certPool := NewCertPool in
      let '(certPool, ok) := AppendCertsFromPEM certPool pem in
      if negb ok then ret (None, Some (fmt_Errorf_s "failed to parse CA" caPath))
      else ret (Some certPool, None)
  end.

(** [TLSSetting.loadTLSConfig] from the pairing check on, given the pool
    the first lines of the function computed. *)
Definition loadTLSConfig_checked `{CryptoLib} (c : TLSSetting)
    (certPool : option CertPool) : M (option tls.Config * option error) :=
  if (String.eqb (CertFile c) "" && negb (String.eqb (KeyFile c) ""))
     || (negb (String.eqb (CertFile c) "") && String.eqb (KeyFile c) "")
  then ret (None, Some (errors_New
         "for auth via TLS, either both certificate and key must be supplied, or neither"))
  else
    made <- (if negb (String.eqb (CertFile c) "") && negb (String.eqb (KeyFile c) "")
             then newCertReloader (CertFile c) (KeyFile c) (ReloadInterval c)
             else ret (None, None)) ;;
    match made with
    | (_, Some err) =>
        ret (None, Some (fmt_Errorf_w "failed to load TLS cert and key" err))
    | (reloader, None) =>
        let getCertificate := reloader in
        let getClientCertificate := reloader in
        match convertVersion (MinVersion c) defaultMinTLSVersion with
        | (_, Some err) => ret (None, Some (fmt_Errorf_w "invalid TLS min_version" err))
        | (minTLS, None) =>
            match convertVersion (MaxVersion c) defaultMaxTLSVersion with
            | (_, Some err) =>
                ret (None, Some (fmt_Errorf_w "invalid TLS max_version" err))
            | (maxTLS, None) =>
                ret (Some {| tls.RootCAs := certPool;
                             tls.GetCertificate := getCertificate;
                             tls.GetClientCertificate := getClientCertificate;
                             tls.MinVersion := minTLS;
                             tls.MaxVersion := maxTLS;
                             tls.ServerName := "";
                             tls.InsecureSkipVerify := false;
                             tls.GetConfigForClient := None;
                             tls.ClientCAs := None;
                             tls.ClientAuth := tls.NoClientCert |},
                     None)
            end
        end
    end.

Definition TLSSetting_loadTLSConfig `{CryptoLib} (c : TLSSetting)
  : M (option tls.Config * option error) :=
  if negb (Nat.eqb (String.length (CAFile c)) 0) then
    loaded <- TLSSetting_loadCert c (CAFile c) ;;
    match loaded with
    | (_, Some err) => ret (None, Some (fmt_Errorf_w "failed to load CA CertPool" err))
    | (certPool, None) => loadTLSConfig_checked c certPool
    end
  else loadTLSConfig_checked c None.

Definition TLSClientSetting_LoadTLSConfig `{CryptoLib} (c : TLSClientSetting)
  : M (option tls.Config * option error) :=
  if Insecure c && String.eqb (CAFile (ClientTLSSetting c)) "" then ret (None, None)
  else
    loaded <- TLSSetting_loadTLSConfig (ClientTLSSetting c) ;;
    match loaded with
    | (_, Some err) => ret (None, Some (fmt_Errorf_w "failed to load TLS config" err))
    | (None, None) => ret (None, Some (runtime_panic "nil pointer dereference"))
    | (Some tlsCfg, None) =>
        let tlsCfg := tls.set_ServerName tlsCfg (ServerName c) in
        let tlsCfg := tls.set_InsecureSkipVerify tlsCfg (InsecureSkipVerify c) in
        ret (Some tlsCfg, None)
    end.

Definition TLSServerSetting_loadClientCAFile `{CryptoLib} (c : TLSServerSetting)
  : M (option CertPool * option error) :=
  TLSSetting_loadCert (ServerTLSSetting c) (ClientCAFile c).

(** Modelled from the spec: [newClientCAsReloader] is not among the
    sources. Spec 4.3: given the client-CA file path and the owning server
    policy, it loads and parses the file into a trust pool and fails with
    [TrustStoreLoadError] on a read or parse failure. The load is the
    policy's own [loadClientCAFile]. *)
Definition newClientCAsReloader `{CryptoLib} (clientCAsFile : string)
    (loader : TLSServerSetting) : M (option clientCAsFileReloader * option error) :=
  loaded <- TLSServerSetting_loadClientCAFile loader ;;
  match loaded with
  | (_, Some err) => ret (None, Some (TrustStoreLoadError err))
  | (certPool, None) =>
      ret (Some {| clientCAsFile := clientCAsFile;
                   certPool := certPool;
                   loader := loader;
                   watching := false |},
           None)
  end.

(** Modelled from the spec: [startWatching] is not among the sources.
    Spec 4.3: a background task subscribes to change notifications for the
    CA file. The subscription is an I/O event that may fail; on success
    the reloader's watch task runs. The cached pool is not touched. *)
Definition startWatching `{CryptoLib} (r : clientCAsFileReloader)
  : M (option error * clientCAsFileReloader) :=
  fun env =>
    match Watcher env (clientCAsFile r) with
    | Some err => ((Some err, r), [EvStartWatch (clientCAsFile r)])
    | None =>
        ((None, {| clientCAsFile := clientCAsFile r;
                   certPool := certPool r;
                   loader := loader r;
                   watching := true |}),
         [EvStartWatch (clientCAsFile r)])
    end.

Definition TLSServerSetting_LoadTLSConfig `{CryptoLib} (c : TLSServerSetting)
  : M (option tls.Config * option error) :=
  loaded <- TLSSetting_loadTLSConfig (ServerTLSSetting c) ;;
  match loaded with
  | (_, Some err) => ret (None, Some (fmt_Errorf_w "failed to load TLS config" err))
  | (None, None) => ret (None, Some (runtime_panic "nil pointer dereference"))
  | (Some tlsCfg, None) =>
      if negb (String.eqb (ClientCAFile c) "") then
        made <- newClientCAsReloader (ClientCAFile c) c ;;
        match made with
        | (_, Some err) => ret (None, Some err)
        | (None, None) => ret (None, Some (runtime_panic "nil pointer dereference"))
        | (Some reloader, None) =>
            if ReloadClientCAFile c then
              started <- startWatching reloader ;;
              match started with
              | (Some err, _) => ret (None, Some err)
              | (None, reloader) =>
                  let tlsCfg := tls.set_GetConfigForClient tlsCfg (Some reloader) in
                  let tlsCfg := tls.set_ClientCAs tlsCfg (certPool reloader) in
                  let tlsCfg := tls.set_ClientAuth tlsCfg tls.RequireAndVerifyClientCert in
                  ret (Some tlsCfg, None)
              end
            else
              let tlsCfg := tls.set_ClientCAs tlsCfg (certPool reloader) in
              let tlsCfg := tls.set_ClientAuth tlsCfg tls.RequireAndVerifyClientCert in
              ret (Some tlsCfg, None)
        end
      else ret (Some tlsCfg, None)
  end.

(** ** What the builders are expected to assemble *)

(** Exactly one of [cert_file] and [key_file] is set. *)
Definition incompleteCredentials (c : TLSSetting) : Prop :=
  (CertFile c = "" /\ KeyFile c <> "") \/ (CertFile c <> "" /\ KeyFile c = "").

Definition errIncompleteCredentials : error :=
  errors_New "for auth via TLS, either both certificate and key must be supplied, or neither".

(** [cfg] is a complete base context for the settings [c] on the disk of
    [env]: the version bounds are the resolved ones, the root pool is the
    one loaded from [ca_file] (nil without a [ca_file]), and both
    certificate callbacks are bound to the one reloader constructed from
    [cert_file] and [key_file] (nil when neither is set). *)
Definition baseContext `{CryptoLib} (c : TLSSetting) (env : Env) (cfg : tls.Config)
  : Prop :=
  convertVersion (MinVersion c) defaultMinTLSVersion = (tls.MinVersion cfg, None)
  /\ convertVersion (MaxVersion c) defaultMaxTLSVersion = (tls.MaxVersion cfg, None)
  /\ (if String.eqb (CAFile c) "" then tls.RootCAs cfg = None
      else exists pool,
          tls.RootCAs cfg = Some pool
          /\ value (TLSSetting_loadCert c (CAFile c)) env = (Some pool, None))
  /\ (if String.eqb (CertFile c) ""
      then KeyFile c = ""
           /\ tls.GetCertificate cfg = None /\ tls.GetClientCertificate cfg = None
      else KeyFile c <> ""
           /\ exists r,
               tls.GetCertificate cfg = Some r /\ tls.GetClientCertificate cfg = Some r
               /\ value (newCertReloader (CertFile c) (KeyFile c) (ReloadInterval c)) env
                  = (Some r, None)).

(** No file watch was started. *)
Definition noWatch (t : list Event) : Prop :=
  forall path, ~ In (EvStartWatch path) t.

(** ** Successive calls on one reloader *)

(** The reloader after the calls of [GetCertificate] made in the
    environments [envs], one after the other. *)
Fixpoint calls `{CryptoLib} (r : certReloader.t) (envs : list Env) : certReloader.t :=
  match envs with
  | [] => r
  | env :: rest => calls (snd (value (GetCertificate r) env)) rest
  end.

(** What each of these calls returned, with the events it performed. *)
Fixpoint callResults `{CryptoLib} (r : certReloader.t) (envs : list Env)
  : list (option Certificate * option error * list Event) :=
  match envs with
  | [] => []
  | env :: rest =>
      let '(c, e, r', t) := GetCertificate r env in
      (c, e, t) :: callResults r' rest
  end.

(** ** Concurrent calls of GetCertificate *)

(** What a call of GetCertificate returns. *)
Definition result `{CryptoLib} : Type := option Certificate * option error.

(** Where one call of GetCertificate stands: the statement it executes
    next, with the locals it has assigned. *)
Inductive call `{CryptoLib} : Type :=
| AtNow                                   (* now := time.Now() *)
| AtRLock (now : Time)                    (* r.lock.RLock() *)
| AtDueTest (now : Time)                  (* if r.ReloadInterval != 0 && ... *)
| AtRUnlock (now : Time)                  (* r.lock.RUnlock() *)
| AtLock (now : Time)                     (* r.lock.Lock(), not yet announced *)
| AtLockWait (now : Time)                 (* r.lock.Lock(), waiting for readers *)
| AtLoad (now : Time)                     (* tls.LoadX509KeyPair(...) *)
| AtStoreCert (now : Time) (c : Certificate)   (* r.cert = &cert *)
| AtStoreNext (now : Time)                (* r.nextReload = now.Add(...) *)
| AtReturnLoaded                          (* return r.cert, nil *)
| AtUnlock (res : result)                 (* the deferred r.lock.Unlock() *)
| AtReturnCached                          (* return r.cert, nil *)
| AtDeferredRUnlock (res : result)        (* the deferred r.lock.RUnlock() *)
| Returned (res : result).

(** [sync.RWMutex], as package [sync] documents it: the number of
    holders of the read lock, and whether a writer has announced itself
    by calling Lock (it then waits for the readers that hold the lock to
    leave, and holds the lock until Unlock). While a writer is announced,
    calls of RLock and of Lock block. *)
Record RWMutex : Type := {
  readers : nat;
  writing : bool
}.

(** The reloader all calls share, its lock, and the stores to its cache
    in the order they were made: the calling thread, the certificate and
    the next-reload instant it stores. *)
Record Shared `{CryptoLib} : Type := {
  reloader : certReloader.t;
  lock : RWMutex;
  stores : list (nat * Certificate * Time)
}.

Definition withLock `{CryptoLib} (sh : Shared) (l : RWMutex) : Shared :=
  {| reloader := reloader sh; lock := l; stores := stores sh |}.

Definition storeCert `{CryptoLib} (r : certReloader.t) (c : Certificate) : certReloader.t :=
  {| certReloader.CertFile := certReloader.CertFile r;
     certReloader.KeyFile := certReloader.KeyFile r;
     certReloader.ReloadInterval := certReloader.ReloadInterval r;
     certReloader.nextReload := certReloader.nextReload r;
     certReloader.cert := Some c |}.

Definition storeNextReload `{CryptoLib} (r : certReloader.t) (t : Time) : certReloader.t :=
  {| certReloader.CertFile := certReloader.CertFile r;
     certReloader.KeyFile := certReloader.KeyFile r;
     certReloader.ReloadInterval := certReloader.ReloadInterval r;
     certReloader.nextReload := t;
     certReloader.cert := certReloader.cert r |}.

(** One statement of the call [p] of thread [tid], in the environment
    [env]; [None] when the statement blocks. *)
Definition stepCall `{CryptoLib} (tid : nat) (env : Env) (sh : Shared) (p : call)
  : option (Shared * call) :=
  let r := reloader sh in
  let l := lock sh in
  match p with
  | AtNow => Some (sh, AtRLock (Now env))
  | AtRLock now =>
      if writing l then None
      else Some (withLock sh {| readers := S (readers l); writing := false |},
                 AtDueTest now)
  | AtDueTest now =>
      if reloadDue r now then Some (sh, AtRUnlock now) else Some (sh, AtReturnCached)
  | AtRUnlock now =>
      Some (withLock sh {| readers := pred (readers l); writing := writing l |},
            AtLock now)
  | AtLock now =>
      if writing l then None
      else Some (withLock sh {| readers := readers l; writing := true |},
                 AtLockWait now)
  | AtLockWait now =>
      if Nat.eqb (readers l) 0 then Some (sh, AtLoad now) else None
  | AtLoad now =>
      match value (tls_LoadX509KeyPair (certReloader.CertFile r)
                     (certReloader.KeyFile r)) env with
      | inr err =>
          Some (sh, AtUnlock (None, Some (fmt_Errorf_w "failed to load TLS cert and key" err)))
      | inl c => Some (sh, AtStoreCert now c)
      end
  | AtStoreCert now c =>
      Some ({| reloader := storeCert r c;
               lock := l;
               stores := stores sh
                         ++ [(tid, c, Time_Add now (certReloader.ReloadInterval r))] |},
            AtStoreNext now)
  | AtStoreNext now =>
      Some ({| reloader :=
                 storeNextReload r (Time_Add now (certReloader.ReloadInterval r));
               lock := l;
               stores := stores sh |},
            AtReturnLoaded)
  | AtReturnLoaded => Some (sh, AtUnlock (certReloader.cert r, None))
  | AtUnlock res =>
      Some (withLock sh {| readers := readers l; writing := false |}, Returned res)
  | AtReturnCached => Some (sh, AtDeferredRUnlock (certReloader.cert r, None))
  | AtDeferredRUnlock res =>
      Some (withLock sh {| readers := pred (readers l); writing := writing l |},
            Returned res)
  | Returned _ => None
  end.

(** The calls in progress, one per thread, and what they share. *)
Record System `{CryptoLib} : Type := {
  shared : Shared;
  threads : list call
}.

(** The scheduler lets thread [tid] execute one statement. *)
Definition step `{CryptoLib} (s : System) (tid : nat) (env : Env) : option System :=
  match threads s !! tid with
  | None => None
  | Some p =>
      match stepCall tid env (shared s) p with
      | None => None
      | Some (sh, p') => Some {| shared := sh; threads := <[tid := p']> (threads s) |}
      end
  end.

(** A schedule: which thread runs next, in which environment. *)
Fixpoint run `{CryptoLib} (s : System) (schedule : list (nat * Env)) : option System :=
  match schedule with
  | [] => Some s
  | (tid, env) :: rest =>
      match step s tid env with
      | None => None
      | Some s' => run s' rest
      end
  end.

(** [n] calls that have not started, on the reloader [r] with a free
    lock. *)
Definition start `{CryptoLib} (r : certReloader.t) (n : nat) : System :=
  {| shared := {| reloader := r;
                  lock := {| readers := 0; writing := false |};
                  stores := [] |};
     threads := replicate n AtNow |}.

Definition isReturned `{CryptoLib} (p : call) : bool :=
  match p with Returned _ => true | _ => false end.

Definition allReturned `{CryptoLib} (s : System) : Prop :=
  forallb isReturned (threads s) = true.

(** The call holds the read lock. *)
Definition holdsRead `{CryptoLib} (p : call) : bool :=
  match p with
  | AtDueTest _ | AtRUnlock _ | AtReturnCached | AtDeferredRUnlock _ => true
  | _ => false
  end.

(** The call has announced itself as the writer. *)
Definition announced `{CryptoLib} (p : call) : bool :=
  match p with
  | AtLockWait _ | AtLoad _ | AtStoreCert _ _ | AtStoreNext _
  | AtReturnLoaded | AtUnlock _ => true
  | _ => false
  end.

(** The call holds the write lock. *)
Definition holdsWrite `{CryptoLib} (p : call) : bool :=
  match p with
  | AtLoad _ | AtStoreCert _ _ | AtStoreNext _ | AtReturnLoaded | AtUnlock _ => true
  | _ => false
  end.

(** The statements left to the call at most. *)
Definition remaining `{CryptoLib} (p : call) : nat :=
  match p with
  | AtNow => 11
  | AtRLock _ => 10
  | AtDueTest _ => 9
  | AtRUnlock _ => 8
  | AtLock _ => 7
  | AtLockWait _ => 6
  | AtLoad _ => 5
  | AtStoreCert _ _ => 4
  | AtStoreNext _ => 3
  | AtReturnLoaded => 2
  | AtUnlock _ => 1
  | AtReturnCached => 2
  | AtDeferredRUnlock _ => 1
  | Returned _ => 0
  end%nat.

(** How many of the calls [ps] satisfy [f]; the sum of [f] over [ps]. *)
Fixpoint total `{CryptoLib} (f : call -> nat) (ps : list call) : nat :=
  match ps with
  | [] => 0
  | p :: rest => f p + total f rest
  end%nat.

Definition count `{CryptoLib} (f : call -> bool) (ps : list call) : nat :=
  total (fun p => if f p then 1%nat else 0%nat) ps.

Definition atStoreNext `{CryptoLib} (p : call) : bool :=
  match p with AtStoreNext _ => true | _ => false end.

(** The certificate and the next-reload instant the cache holds once the
    stores [log] are complete, starting from the reloader [r0]. *)
Definition lastStored `{CryptoLib} (r0 : certReloader.t)
    (log : list (nat * Certificate * Time)) : option Certificate * Time :=
  match last log with
  | Some (_, c, t) => (Some c, t)
  | None => (certReloader.cert r0, certReloader.nextReload r0)
  end.

(** [c] is a whole identity: the one [r0] was constructed with, or one
    that a load of [r0]'s files returned. *)
Definition validCert `{CryptoLib} (r0 : certReloader.t) (c : Certificate) : Prop :=
  certReloader.cert r0 = Some c
  \/ exists env,
      value (tls_LoadX509KeyPair (certReloader.CertFile r0)
               (certReloader.KeyFile r0)) env = inl c.

(** [res] is a valid identity with a nil error, or nil with a reload
    error. *)
Definition validResult `{CryptoLib} (r0 : certReloader.t) (res : result) : Prop :=
  (exists c, res = (Some c, None) /\ validCert r0 c)
  \/ (exists err,
        res = (None, Some (fmt_Errorf_w "failed to load TLS cert and key" err))).

(** What a call carries is valid. *)
Definition callValid `{CryptoLib} (r0 : certReloader.t) (p : call) : Prop :=
  match p with
  | AtStoreCert _ c => validCert r0 c
  | AtUnlock res | AtDeferredRUnlock res | Returned res => validResult r0 res
  | _ => True
  end.

(** What holds in every state that [n] calls on the reloader [r0] reach. *)
Record invariant `{CryptoLib} (r0 : certReloader.t) (s : System) : Prop := {
  inv_readers : readers (lock (shared s)) = count holdsRead (threads s);
  inv_writer :
    (if writing (lock (shared s)) then 1%nat else 0%nat) = count announced (threads s);
  inv_exclusive :
    (1 <= count holdsWrite (threads s))%nat -> readers (lock (shared s)) = 0%nat;
  inv_certFile :
    certReloader.CertFile (reloader (shared s)) = certReloader.CertFile r0;
  inv_keyFile :
    certReloader.KeyFile (reloader (shared s)) = certReloader.KeyFile r0;
  inv_interval :
    certReloader.ReloadInterval (reloader (shared s)) = certReloader.ReloadInterval r0;
  inv_cert :
    certReloader.cert (reloader (shared s)) = fst (lastStored r0 (stores (shared s)));
  inv_next :
    count atStoreNext (threads s) = 0%nat ->
    certReloader.nextReload (reloader (shared s))
    = snd (lastStored r0 (stores (shared s)));
  inv_pending :
    forall tid now,
      threads s !! tid = Some (AtStoreNext now) ->
      exists c,
        last (stores (shared s))
        = Some (tid, c, Time_Add now (certReloader.ReloadInterval r0));
  inv_cache :
    exists c, certReloader.cert (reloader (shared s)) = Some c /\ validCert r0 c;
  inv_calls : Forall (callValid r0) (threads s)
}.

(** The next statement of the call does not block under the lock [l]. *)
Definition enabled `{CryptoLib} (l : RWMutex) (p : call) : bool :=
  match p with
  | AtRLock _ | AtLock _ => negb (writing l)
  | AtLockWait _ => Nat.eqb (readers l) 0
  | Returned _ => false
  | _ => true
  end.

(** ** Further definitions: sequences of calls, stages of the builders *)

(** The clock does not go back: [t] is not after the instant of the first
    environment, which is not after the instant of the second, and so
    on. *)
Fixpoint clockFrom (t : Time) (envs : list Env) : Prop :=
  match envs with
  | [] => True
  | env :: rest => t <= Now env /\ clockFrom (Now env) rest
  end.

(** The last lines of [TLSSetting.loadTLSConfig] (195-210): the two
    versions are resolved, the minimum first, and the configuration is
    assembled; no I/O. *)
Definition assembleConfig `{CryptoLib} (c : TLSSetting) (certPool : option CertPool)
    (reloader : option certReloader.t) : option tls.Config * option error :=
  match convertVersion (MinVersion c) defaultMinTLSVersion with
  | (_, Some err) => (None, Some (fmt_Errorf_w "invalid TLS min_version" err))
  | (minTLS, None) =>
      match convertVersion (MaxVersion c) defaultMaxTLSVersion with
      | (_, Some err) => (None, Some (fmt_Errorf_w "invalid TLS max_version" err))
      | (maxTLS, None) =>
          (Some {| tls.RootCAs := certPool;
                   tls.GetCertificate := reloader;
                   tls.GetClientCertificate := reloader;
                   tls.MinVersion := minTLS;
                   tls.MaxVersion := maxTLS;
                   tls.ServerName := "";
                   tls.InsecureSkipVerify := false;
                   tls.GetConfigForClient := None;
                   tls.ClientCAs := None;
                   tls.ClientAuth := tls.NoClientCert |},
           None)
      end
  end.

(** The files a successful [loadTLSConfig] reads, in order. *)
Definition expectedReads `{CryptoLib} (c : TLSSetting) : list Event :=
  (if String.eqb (CAFile c) "" then [] else [EvReadFile (filepath_Clean (CAFile c))])
  ++ (if String.eqb (CertFile c) "" then []
      else [EvReadFile (CertFile c); EvReadFile (KeyFile c)]).

Definition withInsecure (c : TLSClientSetting) (b : bool) : TLSClientSetting :=
  {| ClientTLSSetting := ClientTLSSetting c; Insecure := b;
     InsecureSkipVerify := InsecureSkipVerify c; ServerName := ServerName c |}.

Definition withReloadClientCAFile (c : TLSServerSetting) (b : bool) : TLSServerSetting :=
  {| ServerTLSSetting := ServerTLSSetting c; ClientCAFile := ClientCAFile c;
     ReloadClientCAFile := b |}.

(** ** Further definitions: the stores of concurrent calls *)

(** The threads that stored, in the order of their stores. *)
Definition storers `{CryptoLib} (log : list (nat * Certificate * Time)) : list nat :=
  map (fun st => fst (fst st)) log.

(** Where a call can be once it has stored: past the first store, and
    not returning an error. *)
Definition afterStore `{CryptoLib} (p : call) : bool :=
  match p with
  | AtStoreNext _ | AtReturnLoaded => true
  | AtUnlock (_, None) | Returned (_, None) => true
  | _ => false
  end.

(** What holds of the stores in every state the calls reach. *)
Record storeInvariant `{CryptoLib} (n : nat) (s : System) : Prop := {
  si_threads : length (threads s) = n;
  si_once : NoDup (storers (stores (shared s)));
  si_after :
    forall tid,
      In tid (storers (stores (shared s))) ->
      exists p, threads s !! tid = Some p /\ afterStore p = true
}.

(** ** MockExporter (package internal of memorylimiterprocessor) *)

(** An [int64] holds the integers from -2^63 to 2^63 - 1; arithmetic
    wraps around. *)
Definition wrap64 (z : Z) : Z := (z + 2 ^ 63) mod 2 ^ 64 - 2 ^ 63.

(** [atomic.AddInt64(&x, delta)], the new value of [x]. *)
Definition atomic_AddInt64 (x delta : Z) : Z := wrap64 (x + delta).

(** What package [plog] provides: the type [plog.Logs] and the number of
    log records of a value of it (an [int]). *)
Class PLog : Type := {
  plog_Logs : Type;
  LogRecordCount : plog_Logs -> Z
}.

Module MockExporter.
Record t `{PLog} : Type := Build {
  destAvailable : Z;
  acceptedLogCount : Z;
  deliveredLogCount : Z;
  Logs : list plog_Logs
}.
End MockExporter.

Definition NewMockExporter `{PLog} : MockExporter.t :=
  {| MockExporter.destAvailable := 0;
     MockExporter.acceptedLogCount := 0;
     MockExporter.deliveredLogCount := 0;
     MockExporter.Logs := [] |}.

(** [ConsumeLogs]: the error it returns and the exporter after the
    call. *)
Definition ConsumeLogs `{PLog} (e : MockExporter.t) (ld : plog_Logs)
  : option error * MockExporter.t :=
  let accepted :=
    atomic_AddInt64 (MockExporter.acceptedLogCount e) (wrap64 (LogRecordCount ld)) in
  if MockExporter.destAvailable e =? 1 then
    (None,
     {| MockExporter.destAvailable := MockExporter.destAvailable e;
        MockExporter.acceptedLogCount := accepted;
        MockExporter.deliveredLogCount :=
          atomic_AddInt64 (MockExporter.deliveredLogCount e)
            (wrap64 (LogRecordCount ld));
        MockExporter.Logs := MockExporter.Logs e |})
  else
    (None,
     {| MockExporter.destAvailable := MockExporter.destAvailable e;
        MockExporter.acceptedLogCount := accepted;
        MockExporter.deliveredLogCount := MockExporter.deliveredLogCount e;
        MockExporter.Logs := MockExporter.Logs e ++ [ld] |}).

Definition SetDestAvailable `{PLog} (e : MockExporter.t) (available : bool)
  : MockExporter.t :=
  if available then
    {| MockExporter.destAvailable := 1;
       MockExporter.acceptedLogCount := MockExporter.acceptedLogCount e;
       MockExporter.deliveredLogCount :=
         atomic_AddInt64 (MockExporter.deliveredLogCount e)
           (MockExporter.acceptedLogCount e);
       MockExporter.Logs := [] |}
  else
    {| MockExporter.destAvailable := 0;
       MockExporter.acceptedLogCount := MockExporter.acceptedLogCount e;
       MockExporter.deliveredLogCount := MockExporter.deliveredLogCount e;
       MockExporter.Logs := MockExporter.Logs e |}.

Definition AcceptedLogCount `{PLog} (e : MockExporter.t) : Z :=
  MockExporter.acceptedLogCount e.

Definition DeliveredLogCount `{PLog} (e : MockExporter.t) : Z :=
  MockExporter.deliveredLogCount e.

(** The calls a test makes on an exporter. *)
Inductive exporterCall `{PLog} : Type :=
| CallConsumeLogs (ld : plog_Logs)
| CallSetDestAvailable (available : bool).

Fixpoint exporterCalls `{PLog} (e : MockExporter.t) (cs : list exporterCall)
  : MockExporter.t :=
  match cs with
  | [] => e
  | CallConsumeLogs ld :: rest => exporterCalls (snd (ConsumeLogs e ld)) rest
  | CallSetDestAvailable b :: rest => exporterCalls (SetDestAvailable e b) rest
  end.

(** The log records of the [ConsumeLogs] calls among [cs], counted
    without bound. *)
Fixpoint recordsConsumed `{PLog} (cs : list exporterCall) : Z :=
  match cs with
  | [] => 0
  | CallConsumeLogs ld :: rest => LogRecordCount ld + recordsConsumed rest
  | CallSetDestAvailable _ :: rest => recordsConsumed rest
  end.

Definition consumeAll `{PLog} (lds : list plog_Logs) : list exporterCall :=
  map CallConsumeLogs lds.


(** ** Sample library and disks *)

Definition sampleX509KeyPair (certPEM keyPEM : bytes) : (bytes * bytes) + error :=
  match certPEM, keyPEM with
  | [], _ => inr (lib_error "tls: failed to find any PEM data in certificate input")
  | _, [] => inr (lib_error "tls: failed to find any PEM data in key input")
  | _, _ => inl (certPEM, keyPEM)
  end.

Definition sampleAppendCertsFromPEM (pool : list bytes) (pem : bytes)
  : list bytes * bool :=
  match pem with
  | [] => (pool, false)
  | _ => (pool ++ [pem], true)
  end.

Definition sampleLib : CryptoLib := {|
  Certificate := bytes * bytes;
  CertPool := list bytes;
  X509KeyPair := sampleX509KeyPair;
  NewCertPool := [];
  AppendCertsFromPEM := sampleAppendCertsFromPEM;
  filepath_Clean := fun path => path
|}.

Definition noSuchFile : error := lib_error "open: no such file or directory".

Definition pem (s : string) : bytes := String.list_byte_of_string s.

Definition certA : @Certificate sampleLib := (pem "CERT-A", pem "KEY-A").
Definition certB : @Certificate sampleLib := (pem "CERT-B", pem "KEY-B").

(** A disk with an identity, a CA bundle and a client-CA bundle. *)
Definition diskA (path : string) : bytes + error :=
  if String.eqb path "cert.pem" then inl (pem "CERT-A")
  else if String.eqb path "key.pem" then inl (pem "KEY-A")
  else if String.eqb path "ca.pem" then inl (pem "CA")
  else if String.eqb path "clients.pem" then inl (pem "CLIENT-CA")
  else inr noSuchFile.

(** The same disk after the identity was rotated. *)
Definition diskB (path : string) : bytes + error :=
  if String.eqb path "cert.pem" then inl (pem "CERT-B")
  else if String.eqb path "key.pem" then inl (pem "KEY-B")
  else diskA path.

(** A disk on which nothing can be read. *)
Definition diskNone (path : string) : bytes + error :=
  inr noSuchFile.

Definition watchOK (path : string) : option error := None.

Definition envAt (now : Time) (disk : string -> bytes + error) : Env :=
  {| Now := now; Disk := disk; Watcher := watchOK |}.

Definition sampleReloader : @certReloader.t sampleLib :=
  {| certReloader.CertFile := "cert.pem";
     certReloader.KeyFile := "key.pem";
     certReloader.ReloadInterval := 5;
     certReloader.nextReload := 10;
     certReloader.cert := Some certA |}.

Definition sampleSetting : TLSSetting :=
  {| CAFile := ""; CertFile := "cert.pem"; KeyFile := "key.pem";
     MinVersion := ""; MaxVersion := ""; ReloadInterval := 5 |}.

(** The reloader [newCertReloader "cert.pem" "key.pem" 5] builds at
    instant 0 on [diskA], and one that never reloads. *)
Definition builtReloader : @certReloader.t sampleLib :=
  {| certReloader.CertFile := "cert.pem";
     certReloader.KeyFile := "key.pem";
     certReloader.ReloadInterval := 5;
     certReloader.nextReload := 5;
     certReloader.cert := Some certA |}.

Definition staticReloader : @certReloader.t sampleLib :=
  {| certReloader.CertFile := "cert.pem";
     certReloader.KeyFile := "key.pem";
     certReloader.ReloadInterval := 0;
     certReloader.nextReload := 0;
     certReloader.cert := Some certA |}.

(** Settings with a certificate but no key. *)
Definition halfSetting (caFile : string) : TLSSetting :=
  {| CAFile := caFile; CertFile := "cert.pem"; KeyFile := "";
     MinVersion := ""; MaxVersion := ""; ReloadInterval := 0 |}.

Definition insecureHalfClient : TLSClientSetting :=
  {| ClientTLSSetting := halfSetting ""; Insecure := true;
     InsecureSkipVerify := false; ServerName := "" |}.

Definition halfClient (caFile : string) : TLSClientSetting :=
  {| ClientTLSSetting := halfSetting caFile; Insecure := false;
     InsecureSkipVerify := false; ServerName := "" |}.

Definition halfServer (caFile : string) : TLSServerSetting :=
  {| ServerTLSSetting := halfSetting caFile; ClientCAFile := "";
     ReloadClientCAFile := false |}.

(** Complete settings. *)
Definition insecureClient : TLSClientSetting :=
  {| ClientTLSSetting := sampleSetting; Insecure := true;
     InsecureSkipVerify := false; ServerName := "" |}.

Definition secureClient : TLSClientSetting :=
  {| ClientTLSSetting :=
       {| CAFile := "ca.pem"; CertFile := "cert.pem"; KeyFile := "key.pem";
          MinVersion := ""; MaxVersion := "1.3"; ReloadInterval := 5 |};
     Insecure := false; InsecureSkipVerify := true;
     ServerName := "collector.example" |}.

Definition plainServer : TLSServerSetting :=
  {| ServerTLSSetting := sampleSetting; ClientCAFile := "";
     ReloadClientCAFile := false |}.

Definition mtlsServer (reload : bool) : TLSServerSetting :=
  {| ServerTLSSetting := sampleSetting; ClientCAFile := "clients.pem";
     ReloadClientCAFile := reload |}.

(** Two callers find the reload due at the same time: both release the
    read lock, thread 0 reloads from [diskB], then thread 1 reloads from
    [diskA]. *)
Definition twoCallers : list (nat * Env) :=
  [ (0%nat, envAt 6 diskB); (1%nat, envAt 7 diskB);       (* time.Now *)
    (0%nat, envAt 7 diskB); (1%nat, envAt 7 diskB);       (* RLock *)
    (0%nat, envAt 7 diskB); (1%nat, envAt 7 diskB);       (* the test: due *)
    (0%nat, envAt 7 diskB); (1%nat, envAt 7 diskB);       (* RUnlock *)
    (0%nat, envAt 7 diskB); (0%nat, envAt 7 diskB);       (* Lock *)
    (0%nat, envAt 8 diskB);                               (* load *)
    (0%nat, envAt 8 diskB); (0%nat, envAt 8 diskB);       (* the two stores *)
    (0%nat, envAt 8 diskB); (0%nat, envAt 8 diskB);       (* return, Unlock *)
    (1%nat, envAt 8 diskA); (1%nat, envAt 8 diskA);       (* Lock *)
    (1%nat, envAt 9 diskA);                               (* load *)
    (1%nat, envAt 9 diskA); (1%nat, envAt 9 diskA);       (* the two stores *)
    (1%nat, envAt 9 diskA); (1%nat, envAt 9 diskA) ].     (* return, Unlock *)

Definition twoCallersEnd : @System sampleLib :=
  {| shared :=
       {| reloader :=
            {| certReloader.CertFile := "cert.pem";
               certReloader.KeyFile := "key.pem";
               certReloader.ReloadInterval := 5;
               certReloader.nextReload := 12;
               certReloader.cert := Some certA |};
          lock := {| readers := 0; writing := false |};
          stores := [(0%nat, certB, 11); (1%nat, certA, 12)] |};
     threads := [Returned (Some certB, None); Returned (Some certA, None)] |}.

(** Sample logs: a batch is its number of records. *)
Definition sampleLogs : PLog := {| plog_Logs := Z; LogRecordCount := fun n => n |}.

(** Settings whose minimum version is above their maximum version. *)
Definition invertedSetting : TLSSetting :=
  {| CAFile := ""; CertFile := ""; KeyFile := "";
     MinVersion := "1.3"; MaxVersion := "1.0"; ReloadInterval := 0 |}.

(** Settings with an identity and an unsupported minimum version. *)
Definition badMinSetting : TLSSetting :=
  {| CAFile := "ca.pem"; CertFile := "cert.pem"; KeyFile := "key.pem";
     MinVersion := "1.4"; MaxVersion := "1.5"; ReloadInterval := 0 |}.

(** The reloader [newCertReloader "cert.pem" "key.pem" (-5)] builds at
    instant 0 on [diskA]. *)
Definition eagerReloader : @certReloader.t sampleLib :=
  {| certReloader.CertFile := "cert.pem";
     certReloader.KeyFile := "key.pem";
     certReloader.ReloadInterval := -5;
     certReloader.nextReload := -5;
     certReloader.cert := Some certA |}.


(** * Properties *)

(** ** Unfolding lemmas *)

Section Reloader.
Context `{CryptoLib}.

Lemma LoadX509KeyPair_events (certFile keyFile : string) (env : Env) :
  events (tls_LoadX509KeyPair certFile keyFile) env = [EvReadFile certFile]
  \/ events (tls_LoadX509KeyPair certFile keyFile) env
     = [EvReadFile certFile; EvReadFile keyFile].
Proof.
  unfold events, tls_LoadX509KeyPair, bind, os_ReadFile, ret; simpl.
  destruct (Disk env certFile); simpl; [|now left].
  destruct (Disk env keyFile); simpl; now right.
Qed.

Lemma reloadDue_spec (r : certReloader.t) (now : Time) :
  reloadDue r now = true
  <-> certReloader.ReloadInterval r <> 0 /\ certReloader.nextReload r < now.
Proof.
  unfold reloadDue, Time_Before.
  rewrite andb_true_iff, negb_true_iff, Z.eqb_neq, Z.ltb_lt. tauto.
Qed.

Lemma GetCertificate_not_due (r : certReloader.t) (env : Env) :
  reloadDue r (Now env) = false ->
  GetCertificate r env = (certReloader.cert r, None, r, []).
Proof.
  intros Hdue. unfold GetCertificate, bind, time_Now, ret; simpl.
  now rewrite Hdue.
Qed.

Lemma GetCertificate_due_failed (r : certReloader.t) (env : Env) (err : error) :
  reloadDue r (Now env) = true ->
  value (tls_LoadX509KeyPair (certReloader.CertFile r) (certReloader.KeyFile r)) env
    = inr err ->
  GetCertificate r env
  = (None, Some (fmt_Errorf_w "failed to load TLS cert and key" err), r,
     events (tls_LoadX509KeyPair (certReloader.CertFile r) (certReloader.KeyFile r)) env).
Proof.
  intros Hdue Hload. unfold GetCertificate, bind, time_Now, ret, value, events in *.
  simpl. rewrite Hdue.
  destruct (tls_LoadX509KeyPair _ _ env) as [loaded t]; simpl in *; subst loaded.
  now rewrite app_nil_r.
Qed.

Lemma GetCertificate_due_loaded (r : certReloader.t) (env : Env) (c : Certificate) :
  reloadDue r (Now env) = true ->
  value (tls_LoadX509KeyPair (certReloader.CertFile r) (certReloader.KeyFile r)) env
    = inl c ->
  GetCertificate r env
  = (Some c, None,
     {| certReloader.CertFile := certReloader.CertFile r;
        certReloader.KeyFile := certReloader.KeyFile r;
        certReloader.ReloadInterval := certReloader.ReloadInterval r;
        certReloader.nextReload := Time_Add (Now env) (certReloader.ReloadInterval r);
        certReloader.cert := Some c |},
     events (tls_LoadX509KeyPair (certReloader.CertFile r) (certReloader.KeyFile r)) env).
Proof.
  intros Hdue Hload. unfold GetCertificate, bind, time_Now, ret, value, events in *.
  simpl. rewrite Hdue.
  destruct (tls_LoadX509KeyPair _ _ env) as [loaded t]; simpl in *; subst loaded.
  now rewrite app_nil_r.
Qed.

Lemma GetCertificate_due_events (r : certReloader.t) (env : Env) :
  reloadDue r (Now env) = true ->
  events (GetCertificate r) env
  = events (tls_LoadX509KeyPair (certReloader.CertFile r) (certReloader.KeyFile r)) env.
Proof.
  intros Hdue.
  destruct (value (tls_LoadX509KeyPair (certReloader.CertFile r)
                     (certReloader.KeyFile r)) env) as [c|err] eqn:Hload.
  - unfold events at 1. now rewrite (GetCertificate_due_loaded r env c).
  - unfold events at 1. now rewrite (GetCertificate_due_failed r env err).
Qed.

End Reloader.

(** ** The reloader *)

Section ReloaderProperties.
Context `{CryptoLib}.

Lemma newCertReloader_loaded (certFile keyFile : string) (interval : Duration)
    (env0 : Env) (r : certReloader.t) :
  value (newCertReloader certFile keyFile interval) env0 = (Some r, None) ->
  exists c,
    value (tls_LoadX509KeyPair certFile keyFile) env0 = inl c
    /\ r = {| certReloader.CertFile := certFile;
              certReloader.KeyFile := keyFile;
              certReloader.ReloadInterval := interval;
              certReloader.nextReload := Time_Add (Now env0) interval;
              certReloader.cert := Some c |}.
Proof.
  unfold value, newCertReloader, bind.
  destruct (tls_LoadX509KeyPair certFile keyFile env0) as [[c|err] t]; simpl.
  - intros Heq. exists c. split; [reflexivity|]. now inversion Heq.
  - discriminate.
Qed.

Lemma GetCertificate_keeps_cache_set (r : certReloader.t) (env : Env) :
  (exists c, certReloader.cert r = Some c) ->
  exists c, certReloader.cert (snd (value (GetCertificate r) env)) = Some c.
Proof.
  intros Hset. unfold value.
  destruct (reloadDue r (Now env)) eqn:Hdue.
  - destruct (value (tls_LoadX509KeyPair (certReloader.CertFile r)
                       (certReloader.KeyFile r)) env) as [c|err] eqn:Hload.
    + rewrite (GetCertificate_due_loaded r env c Hdue Hload). simpl. now exists c.
    + now rewrite (GetCertificate_due_failed r env err Hdue Hload).
  - now rewrite (GetCertificate_not_due r env Hdue).
Qed.

Lemma calls_keep_cache_set (envs : list Env) :
  forall r : certReloader.t,
    (exists c, certReloader.cert r = Some c) ->
    exists c, certReloader.cert (calls r envs) = Some c.
Proof.
  induction envs as [|env rest IH]; intros r Hset; simpl.
  - exact Hset.
  - apply IH. now apply GetCertificate_keeps_cache_set.
Qed.

(** C1 (amended). A call of GetCertificate reads the certificate file
    (and performs any event at all) if and only if the reload interval
    is not zero and the stored next-reload instant is strictly before
    the current instant. With a zero interval the call performs no event
    whatever the disk holds, returns the cached identity with a nil
    error and leaves the reloader as it was. *)
Theorem GetCertificate_rereads_iff_due (r : certReloader.t) (env : Env) :
  (events (GetCertificate r) env <> []
   <-> certReloader.ReloadInterval r <> 0 /\ certReloader.nextReload r < Now env)
  /\ (In (EvReadFile (certReloader.CertFile r)) (events (GetCertificate r) env)
      <-> certReloader.ReloadInterval r <> 0 /\ certReloader.nextReload r < Now env)
  /\ (certReloader.ReloadInterval r = 0 ->
      GetCertificate r env = (certReloader.cert r, None, r, [])).
Proof.
  destruct (reloadDue r (Now env)) eqn:Hdue.
  - pose proof (proj1 (reloadDue_spec r (Now env)) Hdue) as Hspec.
    rewrite (GetCertificate_due_events r env Hdue).
    destruct (LoadX509KeyPair_events (certReloader.CertFile r)
                (certReloader.KeyFile r) env) as [-> | ->];
      (split; [split; [intros _; exact Hspec | discriminate] |
       split; [split; [intros _; exact Hspec | intros _; now left] |
               intros Hzero; tauto]]).
  - assert (Hnot : ~ (certReloader.ReloadInterval r <> 0
                      /\ certReloader.nextReload r < Now env)).
    { intros Hspec. apply reloadDue_spec in Hspec. congruence. }
    unfold events. rewrite (GetCertificate_not_due r env Hdue). simpl.
    repeat split; tauto.
Qed.

(** C2. Once construction succeeded, and after any calls made since,
    a call whose reload is due and whose load from disk fails returns a
    nil certificate with the wrapped load error, and the reloader after
    the call is the reloader before it; its cached identity is set. *)
Theorem failed_reload_keeps_identity (certFile keyFile : string)
    (interval : Duration) (env0 : Env) (r0 : certReloader.t)
    (envs : list Env) (env : Env) (err : error) :
  value (newCertReloader certFile keyFile interval) env0 = (Some r0, None) ->
  reloadDue (calls r0 envs) (Now env) = true ->
  value (tls_LoadX509KeyPair (certReloader.CertFile (calls r0 envs))
           (certReloader.KeyFile (calls r0 envs))) env = inr err ->
  value (GetCertificate (calls r0 envs)) env
  = (None, Some (fmt_Errorf_w "failed to load TLS cert and key" err), calls r0 envs)
  /\ exists c, certReloader.cert (calls r0 envs) = Some c.
Proof.
  intros Hnew Hdue Hload. split.
  - unfold value at 1. now rewrite (GetCertificate_due_failed _ env err Hdue Hload).
  - apply calls_keep_cache_set.
    destruct (newCertReloader_loaded _ _ _ _ _ Hnew) as [c [_ ->]].
    now exists c.
Qed.

(** C7. After a successful construction, a call made while the current
    instant is not past the next-reload instant returns exactly the
    certificate the construction loaded, with a nil error, reads nothing
    and leaves the reloader as it was. *)
Theorem GetCertificate_after_construction (certFile keyFile : string)
    (interval : Duration) (env0 : Env) (r : certReloader.t) (env : Env) :
  value (newCertReloader certFile keyFile interval) env0 = (Some r, None) ->
  Now env <= certReloader.nextReload r ->
  exists c,
    value (tls_LoadX509KeyPair certFile keyFile) env0 = inl c
    /\ GetCertificate r env = (Some c, None, r, []).
Proof.
  intros Hnew Hnow.
  destruct (newCertReloader_loaded _ _ _ _ _ Hnew) as [c [Hload Hr]].
  exists c. split; [exact Hload|].
  rewrite GetCertificate_not_due.
  - now rewrite Hr.
  - destruct (reloadDue r (Now env)) eqn:Hdue; [|reflexivity].
    apply reloadDue_spec in Hdue. lia.
Qed.

Lemma reloadDue_later (r : certReloader.t) (now now' : Time) :
  reloadDue r now = true -> now <= now' -> reloadDue r now' = true.
Proof.
  rewrite !reloadDue_spec. intros [Hint Hnext] Hle. split; [exact Hint | lia].
Qed.

Lemma failing_calls_change_nothing (r : certReloader.t) (now : Time)
    (later : list Env) :
  reloadDue r now = true ->
  Forall (fun env' =>
            now <= Now env'
            /\ exists err',
                 value (tls_LoadX509KeyPair (certReloader.CertFile r)
                          (certReloader.KeyFile r)) env' = inr err') later ->
  calls r later = r
  /\ Forall (fun res =>
               fst (fst res) = None
               /\ (exists err',
                     snd (fst res)
                     = Some (fmt_Errorf_w "failed to load TLS cert and key" err'))
               /\ In (EvReadFile (certReloader.CertFile r)) (snd res))
            (callResults r later)
  /\ length (callResults r later) = length later.
Proof.
  intros Hdue. induction 1 as [|env' rest [Hle [err' Hload]] _ IH]; simpl.
  - repeat split. constructor.
  - pose proof (reloadDue_later r now (Now env') Hdue Hle) as Hdue'.
    unfold value at 1.
    rewrite (GetCertificate_due_failed r env' err' Hdue' Hload). simpl.
    destruct IH as [IHr [IHres IHlen]].
    split; [exact IHr|]. split; [|now rewrite IHlen].
    constructor; [|exact IHres]. simpl.
    split; [reflexivity|]. split; [now exists err'|].
    destruct (LoadX509KeyPair_events (certReloader.CertFile r)
                (certReloader.KeyFile r) env') as [-> | ->]; now left.
Qed.

(** C9. When a due reload fails, the call returns the error and the
    reloader after the call equals the reloader before it, the
    next-reload instant included. Every later call (the clock does not
    go back) made while the load keeps failing reads the certificate
    file again, returns a nil certificate with an error and changes
    nothing; the first later call whose load succeeds returns the loaded
    certificate, stores it and moves the next-reload instant to that
    call's instant plus the interval. *)
Theorem failed_reload_is_retried (r : certReloader.t) (env : Env) (err : error)
    (later : list Env) :
  reloadDue r (Now env) = true ->
  value (tls_LoadX509KeyPair (certReloader.CertFile r)
           (certReloader.KeyFile r)) env = inr err ->
  Forall (fun env' =>
            Now env <= Now env'
            /\ exists err',
                 value (tls_LoadX509KeyPair (certReloader.CertFile r)
                          (certReloader.KeyFile r)) env' = inr err') later ->
  value (GetCertificate r) env
  = (None, Some (fmt_Errorf_w "failed to load TLS cert and key" err), r)
  /\ calls r later = r
  /\ Forall (fun res =>
               fst (fst res) = None
               /\ (exists err',
                     snd (fst res)
                     = Some (fmt_Errorf_w "failed to load TLS cert and key" err'))
               /\ In (EvReadFile (certReloader.CertFile r)) (snd res))
            (callResults r later)
  /\ length (callResults r later) = length later
  /\ forall (env' : Env) (c : Certificate),
       Now env <= Now env' ->
       value (tls_LoadX509KeyPair (certReloader.CertFile r)
                (certReloader.KeyFile r)) env' = inl c ->
       value (GetCertificate (calls r later)) env'
       = (Some c, None,
          {| certReloader.CertFile := certReloader.CertFile r;
             certReloader.KeyFile := certReloader.KeyFile r;
             certReloader.ReloadInterval := certReloader.ReloadInterval r;
             certReloader.nextReload :=
               Time_Add (Now env') (certReloader.ReloadInterval r);
             certReloader.cert := Some c |}).
Proof.
  intros Hdue Hload Hlater.
  destruct (failing_calls_change_nothing r (Now env) later Hdue Hlater)
    as [Hsame [Hres Hlen]].
  split.
  { unfold value at 1. now rewrite (GetCertificate_due_failed r env err Hdue Hload). }
  split; [exact Hsame|]. split; [exact Hres|]. split; [exact Hlen|].
  intros env' c Hle Hok. rewrite Hsame.
  pose proof (reloadDue_later r (Now env) (Now env') Hdue Hle) as Hdue'.
  unfold value at 1. now rewrite (GetCertificate_due_loaded r env' c Hdue' Hok).
Qed.

End ReloaderProperties.

(** The claim of C1 as worded fails when the current instant equals the
    next-reload instant: the interval is 5, the instant is at the stored
    instant 10, and the call reads nothing. *)
Lemma GetCertificate_at_nextReload_reads_nothing :
  ~ (events (GetCertificate sampleReloader) (envAt 10 diskB) <> []
     <-> certReloader.ReloadInterval sampleReloader <> 0
         /\ certReloader.nextReload sampleReloader <= Now (envAt 10 diskB)).
Proof.
  intros [_ Hback]. apply Hback; [|reflexivity].
  split; [discriminate | vm_compute; discriminate].
Qed.

Lemma GetCertificate_rereads_iff_due_witness :
  GetCertificate staticReloader (envAt 1000 diskB)
  = (Some certA, None, staticReloader, [])
  /\ events (GetCertificate sampleReloader) (envAt 11 diskB) <> []
  /\ ~ In (EvReadFile "cert.pem") (events (GetCertificate sampleReloader) (envAt 10 diskB)).
Proof.
  split; [|split].
  - apply (proj2 (proj2 (@GetCertificate_rereads_iff_due sampleLib staticReloader
                           (envAt 1000 diskB)))).
    reflexivity.
  - apply (proj1 (@GetCertificate_rereads_iff_due sampleLib sampleReloader
                    (envAt 11 diskB))).
    split; [discriminate | reflexivity].
  - intros Hin.
    apply (proj1 (proj2 (@GetCertificate_rereads_iff_due sampleLib sampleReloader
                           (envAt 10 diskB)))) in Hin.
    destruct Hin as [_ Hlt]. vm_compute in Hlt. discriminate.
Defined.

Lemma failed_reload_keeps_identity_witness :
  value (newCertReloader "cert.pem" "key.pem" 5) (envAt 0 diskA)
  = (Some builtReloader, None)
  /\ reloadDue (calls builtReloader [envAt 3 diskB; envAt 7 diskB]) (Now (envAt 20 diskNone))
     = true
  /\ value (GetCertificate (calls builtReloader [envAt 3 diskB; envAt 7 diskB]))
       (envAt 20 diskNone)
     = (None, Some (fmt_Errorf_w "failed to load TLS cert and key" noSuchFile),
        calls builtReloader [envAt 3 diskB; envAt 7 diskB])
  /\ exists c,
       certReloader.cert (calls builtReloader [envAt 3 diskB; envAt 7 diskB]) = Some c.
Proof.
  split; [reflexivity|]. split; [reflexivity|].
  apply (@failed_reload_keeps_identity sampleLib "cert.pem" "key.pem" 5
           (envAt 0 diskA) builtReloader [envAt 3 diskB; envAt 7 diskB]
           (envAt 20 diskNone) noSuchFile); reflexivity.
Defined.

Lemma GetCertificate_after_construction_witness :
  value (newCertReloader "cert.pem" "key.pem" 5) (envAt 0 diskA)
  = (Some builtReloader, None)
  /\ Now (envAt 4 diskB) <= certReloader.nextReload builtReloader
  /\ exists c,
       value (@tls_LoadX509KeyPair sampleLib "cert.pem" "key.pem") (envAt 0 diskA) = inl c
       /\ GetCertificate builtReloader (envAt 4 diskB) = (Some c, None, builtReloader, []).
Proof.
  split; [reflexivity|]. split; [vm_compute; discriminate|].
  apply (@GetCertificate_after_construction sampleLib "cert.pem" "key.pem" 5
           (envAt 0 diskA) builtReloader (envAt 4 diskB));
    [reflexivity | vm_compute; discriminate].
Defined.

Lemma failed_reload_is_retried_witness :
  reloadDue builtReloader (Now (envAt 6 diskNone)) = true
  /\ calls builtReloader [envAt 7 diskNone; envAt 9 diskNone] = builtReloader
  /\ length (callResults builtReloader [envAt 7 diskNone; envAt 9 diskNone]) = 2%nat
  /\ value (GetCertificate (calls builtReloader [envAt 7 diskNone; envAt 9 diskNone]))
       (envAt 12 diskB)
     = (Some certB, None,
        {| certReloader.CertFile := "cert.pem";
           certReloader.KeyFile := "key.pem";
           certReloader.ReloadInterval := 5;
           certReloader.nextReload := 17;
           certReloader.cert := Some certB |}).
Proof.
  assert (Hlater :
    Forall (fun env' =>
              Now (envAt 6 diskNone) <= Now env'
              /\ exists err',
                   value (@tls_LoadX509KeyPair sampleLib (certReloader.CertFile builtReloader)
                            (certReloader.KeyFile builtReloader)) env' = inr err')
           [envAt 7 diskNone; envAt 9 diskNone]).
  { repeat constructor; try (vm_compute; discriminate);
      exists noSuchFile; reflexivity. }
  destruct (@failed_reload_is_retried sampleLib builtReloader (envAt 6 diskNone)
              noSuchFile [envAt 7 diskNone; envAt 9 diskNone]
              eq_refl eq_refl Hlater) as [_ [Hsame [_ [Hlen Hnext]]]].
  split; [reflexivity|]. split; [exact Hsame|]. split; [exact Hlen|].
  apply (Hnext (envAt 12 diskB) certB);
    [vm_compute; discriminate | reflexivity].
Defined.

(** ** Version resolution *)

Lemma tlsVersions_other (v : string) :
  v <> "1.0" -> v <> "1.1" -> v <> "1.2" -> v <> "1.3" -> tlsVersions !! v = None.
Proof. intros. unfold tlsVersions. by simplify_map_eq. Qed.

Lemma eqb_empty_false (v : string) : v <> "" -> String.eqb v "" = false.
Proof. intros Hne. now apply String.eqb_neq. Qed.

Lemma length_zero_empty (v : string) : Nat.eqb (String.length v) 0 = String.eqb v "".
Proof. now destruct v. Qed.

(** ** The builders *)

Ltac unfold_run :=
  unfold value, events, bind, ret, os_ReadFile, time_Now in *; simpl in *.

Section BuilderProperties.
Context `{CryptoLib}.

Lemma loadCert_events (c : TLSSetting) (caPath : string) (env : Env) :
  events (TLSSetting_loadCert c caPath) env = [EvReadFile (filepath_Clean caPath)].
Proof.
  unfold TLSSetting_loadCert. unfold_run.
  destruct (Disk env (filepath_Clean caPath)) as [pem|err]; simpl; [|reflexivity].
  destruct (AppendCertsFromPEM NewCertPool pem) as [pool [|]]; reflexivity.
Qed.

Lemma loadCert_outcome (c : TLSSetting) (caPath : string) (env : Env) :
  (exists pool, value (TLSSetting_loadCert c caPath) env = (Some pool, None))
  \/ (exists err, value (TLSSetting_loadCert c caPath) env = (None, Some err)).
Proof.
  unfold TLSSetting_loadCert. unfold_run.
  destruct (Disk env (filepath_Clean caPath)) as [pem|err]; simpl; [|eauto].
  destruct (AppendCertsFromPEM NewCertPool pem) as [pool [|]]; simpl; eauto.
Qed.

Lemma newCertReloader_outcome (certFile keyFile : string) (d : Duration) (env : Env) :
  (exists r, value (newCertReloader certFile keyFile d) env = (Some r, None))
  \/ (exists err, value (newCertReloader certFile keyFile d) env = (None, Some err)).
Proof.
  unfold newCertReloader, value, bind.
  destruct (tls_LoadX509KeyPair certFile keyFile env) as [[c|err] t]; simpl; eauto.
Qed.

Lemma newCertReloader_events (certFile keyFile : string) (d : Duration) (env : Env) :
  events (newCertReloader certFile keyFile d) env
  = events (tls_LoadX509KeyPair certFile keyFile) env.
Proof.
  unfold newCertReloader, events, bind.
  destruct (tls_LoadX509KeyPair certFile keyFile env) as [[c|err] t]; simpl;
    now rewrite app_nil_r.
Qed.

Lemma noWatch_nil : noWatch [].
Proof. intros path []. Qed.

Lemma noWatch_app (t u : list Event) : noWatch t -> noWatch u -> noWatch (t ++ u).
Proof.
  intros Ht Hu path Hin. apply in_app_or in Hin. destruct Hin; [eapply Ht | eapply Hu]; eauto.
Qed.

Lemma noWatch_LoadX509KeyPair (certFile keyFile : string) (env : Env) :
  noWatch (events (tls_LoadX509KeyPair certFile keyFile) env).
Proof.
  intros path Hin.
  destruct (LoadX509KeyPair_events certFile keyFile env) as [Heq | Heq];
    rewrite Heq in Hin; simpl in Hin; intuition discriminate.
Qed.

Lemma noWatch_loadCert (c : TLSSetting) (caPath : string) (env : Env) :
  noWatch (events (TLSSetting_loadCert c caPath) env).
Proof.
  rewrite loadCert_events. intros path [Heq | []]. discriminate.
Qed.

(** With exactly one of the two files set, the part of loadTLSConfig
    from the pairing check on fails at once and reads nothing. *)
Lemma loadTLSConfig_checked_incomplete (c : TLSSetting)
    (certPool : option CertPool) (env : Env) :
  incompleteCredentials c ->
  loadTLSConfig_checked c certPool env = (None, Some errIncompleteCredentials, []).
Proof.
  intros Hinc. unfold loadTLSConfig_checked.
  destruct Hinc as [[Hc Hk] | [Hc Hk]].
  - rewrite Hc, (eqb_empty_false _ Hk). reflexivity.
  - rewrite Hk, (eqb_empty_false _ Hc). reflexivity.
Qed.

Lemma loadTLSConfig_checked_built (c : TLSSetting) (certPool : option CertPool)
    (env : Env) (cfg : tls.Config) :
  value (loadTLSConfig_checked c certPool) env = (Some cfg, None) ->
  tls.RootCAs cfg = certPool
  /\ convertVersion (MinVersion c) defaultMinTLSVersion = (tls.MinVersion cfg, None)
  /\ convertVersion (MaxVersion c) defaultMaxTLSVersion = (tls.MaxVersion cfg, None)
  /\ (if String.eqb (CertFile c) ""
      then KeyFile c = ""
           /\ tls.GetCertificate cfg = None /\ tls.GetClientCertificate cfg = None
      else KeyFile c <> ""
           /\ exists r,
               tls.GetCertificate cfg = Some r /\ tls.GetClientCertificate cfg = Some r
               /\ value (newCertReloader (CertFile c) (KeyFile c) (ReloadInterval c)) env
                  = (Some r, None))
  /\ tls.ServerName cfg = "" /\ tls.InsecureSkipVerify cfg = false
  /\ tls.GetConfigForClient cfg = None /\ tls.ClientCAs cfg = None
  /\ tls.ClientAuth cfg = tls.NoClientCert.
Proof.
  unfold loadTLSConfig_checked.
  destruct (String.eqb (CertFile c) "") eqn:Hc, (String.eqb (KeyFile c) "") eqn:Hk;
    simpl; try (unfold value, ret; simpl; discriminate).
  - apply String.eqb_eq in Hk.
    unfold value, bind, ret; simpl.
    destruct (convertVersion (MinVersion c) defaultMinTLSVersion) as [minTLS [e1|]];
      simpl; [discriminate|].
    destruct (convertVersion (MaxVersion c) defaultMaxTLSVersion) as [maxTLS [e2|]];
      simpl; [discriminate|].
    intros Heq. inversion Heq; subst cfg; simpl. tauto.
  - apply String.eqb_neq in Hk.
    destruct (newCertReloader_outcome (CertFile c) (KeyFile c) (ReloadInterval c) env)
      as [[r Hr] | [err Hr]]; rewrite Hr;
      unfold value, bind in *;
      destruct (newCertReloader (CertFile c) (KeyFile c) (ReloadInterval c) env)
        as [made t]; simpl in Hr; subst made; simpl; [|discriminate].
    destruct (convertVersion (MinVersion c) defaultMinTLSVersion) as [minTLS [e1|]];
      simpl; [discriminate|].
    destruct (convertVersion (MaxVersion c) defaultMaxTLSVersion) as [maxTLS [e2|]];
      simpl; [discriminate|].
    intros Heq. inversion Heq; subst cfg; simpl.
    repeat split; try reflexivity; try assumption. now exists r.
Qed.

Lemma loadTLSConfig_checked_outcome (c : TLSSetting) (certPool : option CertPool)
    (env : Env) :
  (exists cfg, value (loadTLSConfig_checked c certPool) env = (Some cfg, None))
  \/ (exists err,
        value (loadTLSConfig_checked c certPool) env = (None, Some err)
        /\ forall msg, err <> runtime_panic msg).
Proof.
  unfold loadTLSConfig_checked.
  destruct (String.eqb (CertFile c) "") eqn:Hc, (String.eqb (KeyFile c) "") eqn:Hk;
    simpl; try (right; eexists; split; [reflexivity | discriminate]).
  - unfold value, bind, ret; simpl.
    destruct (convertVersion (MinVersion c) defaultMinTLSVersion) as [minTLS [e1|]];
      simpl; [right; eexists; split; [reflexivity | discriminate]|].
    destruct (convertVersion (MaxVersion c) defaultMaxTLSVersion) as [maxTLS [e2|]];
      simpl; [right; eexists; split; [reflexivity | discriminate]|].
    left. eexists. reflexivity.
  - unfold value, bind.
    destruct (newCertReloader (CertFile c) (KeyFile c) (ReloadInterval c) env)
      as [[made [e0|]] t]; simpl;
      [right; eexists; split; [reflexivity | discriminate]|].
    destruct (convertVersion (MinVersion c) defaultMinTLSVersion) as [minTLS [e1|]];
      simpl; [right; eexists; split; [reflexivity | discriminate]|].
    destruct (convertVersion (MaxVersion c) defaultMaxTLSVersion) as [maxTLS [e2|]];
      simpl; [right; eexists; split; [reflexivity | discriminate]|].
    left. eexists. reflexivity.
Qed.

Lemma loadTLSConfig_checked_noWatch (c : TLSSetting) (certPool : option CertPool)
    (env : Env) :
  noWatch (events (loadTLSConfig_checked c certPool) env).
Proof.
  unfold loadTLSConfig_checked.
  destruct (String.eqb (CertFile c) "") eqn:Hc, (String.eqb (KeyFile c) "") eqn:Hk;
    simpl; try apply noWatch_nil.
  - unfold events, bind, ret; simpl.
    destruct (convertVersion (MinVersion c) defaultMinTLSVersion) as [minTLS [e1|]];
      simpl; [apply noWatch_nil|].
    destruct (convertVersion (MaxVersion c) defaultMaxTLSVersion) as [maxTLS [e2|]];
      simpl; apply noWatch_nil.
  - pose proof (noWatch_LoadX509KeyPair (CertFile c) (KeyFile c) env) as Hload.
    rewrite <- (newCertReloader_events _ _ (ReloadInterval c)) in Hload.
    unfold events, bind in *.
    destruct (newCertReloader (CertFile c) (KeyFile c) (ReloadInterval c) env)
      as [[made [e0|]] t]; simpl in *;
      [now rewrite app_nil_r|].
    destruct (convertVersion (MinVersion c) defaultMinTLSVersion) as [minTLS [e1|]];
      simpl; [now rewrite app_nil_r|].
    destruct (convertVersion (MaxVersion c) defaultMaxTLSVersion) as [maxTLS [e2|]];
      simpl; now rewrite app_nil_r.
Qed.

(** What loadTLSConfig does before the pairing check. *)
Lemma loadTLSConfig_no_CA (c : TLSSetting) (env : Env) :
  CAFile c = "" ->
  TLSSetting_loadTLSConfig c env = loadTLSConfig_checked c None env.
Proof.
  intros Hca. unfold TLSSetting_loadTLSConfig. now rewrite Hca.
Qed.

Lemma loadTLSConfig_CA_loaded (c : TLSSetting) (env : Env) (certPool : option CertPool) :
  CAFile c <> "" ->
  value (TLSSetting_loadCert c (CAFile c)) env = (certPool, None) ->
  value (TLSSetting_loadTLSConfig c) env = value (loadTLSConfig_checked c certPool) env
  /\ events (TLSSetting_loadTLSConfig c) env
     = EvReadFile (filepath_Clean (CAFile c))
         :: events (loadTLSConfig_checked c certPool) env.
Proof.
  intros Hca Hload. unfold TLSSetting_loadTLSConfig.
  rewrite length_zero_empty, (eqb_empty_false _ Hca). simpl.
  pose proof (loadCert_events c (CAFile c) env) as Hev.
  unfold value, events, bind in *.
  destruct (TLSSetting_loadCert c (CAFile c) env) as [loaded t].
  simpl in *. subst loaded t.
  destruct (loadTLSConfig_checked c certPool env) as [res t']. now simpl.
Qed.

Lemma loadTLSConfig_CA_failed (c : TLSSetting) (env : Env)
    (certPool : option CertPool) (err : error) :
  CAFile c <> "" ->
  value (TLSSetting_loadCert c (CAFile c)) env = (certPool, Some err) ->
  TLSSetting_loadTLSConfig c env
  = (None, Some (fmt_Errorf_w "failed to load CA CertPool" err),
     [EvReadFile (filepath_Clean (CAFile c))]).
Proof.
  intros Hca Hload. unfold TLSSetting_loadTLSConfig.
  rewrite length_zero_empty, (eqb_empty_false _ Hca). simpl.
  pose proof (loadCert_events c (CAFile c) env) as Hev.
  unfold value, events, bind in *.
  destruct (TLSSetting_loadCert c (CAFile c) env) as [loaded t].
  simpl in *. now subst loaded t.
Qed.

Lemma loadTLSConfig_outcome (c : TLSSetting) (env : Env) :
  (exists cfg, value (TLSSetting_loadTLSConfig c) env = (Some cfg, None))
  \/ (exists err,
        value (TLSSetting_loadTLSConfig c) env = (None, Some err)
        /\ forall msg, err <> runtime_panic msg).
Proof.
  destruct (String.eqb (CAFile c) "") eqn:Hca.
  - apply String.eqb_eq in Hca. unfold value.
    rewrite (loadTLSConfig_no_CA c env Hca).
    apply loadTLSConfig_checked_outcome.
  - apply String.eqb_neq in Hca.
    destruct (value (TLSSetting_loadCert c (CAFile c)) env) as [certPool [err|]] eqn:Hload.
    + right. exists (fmt_Errorf_w "failed to load CA CertPool" err).
      unfold value at 1. rewrite (loadTLSConfig_CA_failed c env certPool err Hca Hload).
      split; [reflexivity | discriminate].
    + destruct (loadTLSConfig_CA_loaded c env certPool Hca Hload) as [-> _].
      apply loadTLSConfig_checked_outcome.
Qed.

Lemma loadTLSConfig_noWatch (c : TLSSetting) (env : Env) :
  noWatch (events (TLSSetting_loadTLSConfig c) env).
Proof.
  destruct (String.eqb (CAFile c) "") eqn:Hca.
  - apply String.eqb_eq in Hca. unfold events.
    rewrite (loadTLSConfig_no_CA c env Hca).
    apply loadTLSConfig_checked_noWatch.
  - apply String.eqb_neq in Hca.
    destruct (value (TLSSetting_loadCert c (CAFile c)) env) as [certPool [err|]] eqn:Hload.
    + unfold events. rewrite (loadTLSConfig_CA_failed c env certPool err Hca Hload).
      intros path [Heq | []]. discriminate.
    + destruct (loadTLSConfig_CA_loaded c env certPool Hca Hload) as [_ ->].
      intros path [Heq | Hin]; [discriminate|].
      now apply (loadTLSConfig_checked_noWatch c certPool env path).
Qed.

Lemma loadTLSConfig_built (c : TLSSetting) (env : Env) (cfg : tls.Config) :
  value (TLSSetting_loadTLSConfig c) env = (Some cfg, None) ->
  baseContext c env cfg
  /\ tls.ServerName cfg = "" /\ tls.InsecureSkipVerify cfg = false
  /\ tls.GetConfigForClient cfg = None /\ tls.ClientCAs cfg = None
  /\ tls.ClientAuth cfg = tls.NoClientCert.
Proof.
  unfold baseContext.
  destruct (String.eqb (CAFile c) "") eqn:Hca.
  - apply String.eqb_eq in Hca. unfold value at 1.
    rewrite (loadTLSConfig_no_CA c env Hca). intros Hval.
    apply loadTLSConfig_checked_built in Hval. tauto.
  - apply String.eqb_neq in Hca.
    destruct (value (TLSSetting_loadCert c (CAFile c)) env) as [certPool [err|]] eqn:Hload.
    + unfold value at 1. rewrite (loadTLSConfig_CA_failed c env certPool err Hca Hload).
      discriminate.
    + destruct (loadTLSConfig_CA_loaded c env certPool Hca Hload) as [-> _].
      intros Hval. apply loadTLSConfig_checked_built in Hval.
      destruct Hval as [Hroot Hrest].
      destruct (loadCert_outcome c (CAFile c) env) as [[pool Hp] | [e Hp]];
        rewrite Hload in Hp; [|discriminate].
      inversion Hp; subst certPool.
      repeat split; try tauto. now exists pool.
Qed.

Lemma server_base_failed (c : TLSServerSetting) (env : Env)
    (cfg : option tls.Config) (err : error) :
  value (TLSSetting_loadTLSConfig (ServerTLSSetting c)) env = (cfg, Some err) ->
  TLSServerSetting_LoadTLSConfig c env
  = (None, Some (fmt_Errorf_w "failed to load TLS config" err),
     events (TLSSetting_loadTLSConfig (ServerTLSSetting c)) env).
Proof.
  intros Hbase. unfold TLSServerSetting_LoadTLSConfig, value, events, bind in *.
  destruct (TLSSetting_loadTLSConfig (ServerTLSSetting c) env) as [loaded t].
  simpl in *. subst loaded. unfold ret. destruct cfg; simpl; now rewrite app_nil_r.
Qed.

Lemma server_no_client_CA (c : TLSServerSetting) (env : Env) (base : tls.Config) :
  value (TLSSetting_loadTLSConfig (ServerTLSSetting c)) env = (Some base, None) ->
  ClientCAFile c = "" ->
  TLSServerSetting_LoadTLSConfig c env
  = (Some base, None, events (TLSSetting_loadTLSConfig (ServerTLSSetting c)) env).
Proof.
  intros Hbase Hca. unfold TLSServerSetting_LoadTLSConfig, value, events, bind in *.
  destruct (TLSSetting_loadTLSConfig (ServerTLSSetting c) env) as [loaded t].
  simpl in *. subst loaded. rewrite Hca. unfold ret. simpl. now rewrite app_nil_r.
Qed.

Lemma loadClientCAFile_run (c : TLSServerSetting) (env : Env) :
  TLSServerSetting_loadClientCAFile c env
  = (value (TLSServerSetting_loadClientCAFile c) env,
     [EvReadFile (filepath_Clean (ClientCAFile c))]).
Proof.
  pose proof (loadCert_events (ServerTLSSetting c) (ClientCAFile c) env) as Hev.
  unfold TLSServerSetting_loadClientCAFile, value, events in *.
  destruct (TLSSetting_loadCert (ServerTLSSetting c) (ClientCAFile c) env) as [v t].
  simpl in *. now subst t.
Qed.

Ltac server_run c env Hbase Hca Hload :=
  let loaded := fresh "loaded" in
  let t := fresh "t" in
  unfold TLSServerSetting_LoadTLSConfig, value, events, bind in *;
  destruct (TLSSetting_loadTLSConfig (ServerTLSSetting c) env) as [loaded t];
  simpl in Hbase; subst loaded;
  rewrite (eqb_empty_false _ Hca); simpl;
  unfold newClientCAsReloader, bind; 
  rewrite (loadClientCAFile_run c env); unfold value; rewrite Hload;
  cbv beta iota; simpl.

Lemma server_client_CA_failed (c : TLSServerSetting) (env : Env) (base : tls.Config)
    (pool : option CertPool) (err : error) :
  value (TLSSetting_loadTLSConfig (ServerTLSSetting c)) env = (Some base, None) ->
  ClientCAFile c <> "" ->
  value (TLSServerSetting_loadClientCAFile c) env = (pool, Some err) ->
  TLSServerSetting_LoadTLSConfig c env
  = (None, Some (TrustStoreLoadError err),
     events (TLSSetting_loadTLSConfig (ServerTLSSetting c)) env
       ++ [EvReadFile (filepath_Clean (ClientCAFile c))]).
Proof.
  intros Hbase Hca Hload.
  server_run c env Hbase Hca Hload. reflexivity.
Qed.

Lemma server_static_client_CA (c : TLSServerSetting) (env : Env) (base : tls.Config)
    (pool : option CertPool) :
  value (TLSSetting_loadTLSConfig (ServerTLSSetting c)) env = (Some base, None) ->
  ClientCAFile c <> "" ->
  value (TLSServerSetting_loadClientCAFile c) env = (pool, None) ->
  ReloadClientCAFile c = false ->
  TLSServerSetting_LoadTLSConfig c env
  = (Some (tls.set_ClientAuth (tls.set_ClientCAs base pool)
             tls.RequireAndVerifyClientCert), None,
     events (TLSSetting_loadTLSConfig (ServerTLSSetting c)) env
       ++ [EvReadFile (filepath_Clean (ClientCAFile c))]).
Proof.
  intros Hbase Hca Hload Hreload.
  server_run c env Hbase Hca Hload. rewrite Hreload. reflexivity.
Qed.

Lemma server_watch_failed (c : TLSServerSetting) (env : Env) (base : tls.Config)
    (pool : option CertPool) (err : error) :
  value (TLSSetting_loadTLSConfig (ServerTLSSetting c)) env = (Some base, None) ->
  ClientCAFile c <> "" ->
  value (TLSServerSetting_loadClientCAFile c) env = (pool, None) ->
  ReloadClientCAFile c = true ->
  Watcher env (ClientCAFile c) = Some err ->
  TLSServerSetting_LoadTLSConfig c env
  = (None, Some err,
     events (TLSSetting_loadTLSConfig (ServerTLSSetting c)) env
       ++ [EvReadFile (filepath_Clean (ClientCAFile c));
           EvStartWatch (ClientCAFile c)]).
Proof.
  intros Hbase Hca Hload Hreload Hwatch.
  server_run c env Hbase Hca Hload. rewrite Hreload.
  unfold startWatching. simpl. rewrite Hwatch. reflexivity.
Qed.

Lemma server_watched_client_CA (c : TLSServerSetting) (env : Env) (base : tls.Config)
    (pool : option CertPool) :
  value (TLSSetting_loadTLSConfig (ServerTLSSetting c)) env = (Some base, None) ->
  ClientCAFile c <> "" ->
  value (TLSServerSetting_loadClientCAFile c) env = (pool, None) ->
  ReloadClientCAFile c = true ->
  Watcher env (ClientCAFile c) = None ->
  TLSServerSetting_LoadTLSConfig c env
  = (Some (tls.set_ClientAuth
             (tls.set_ClientCAs
                (tls.set_GetConfigForClient base
                   (Some {| clientCAsFile := ClientCAFile c;
                            certPool := pool;
                            loader := c;
                            watching := true |}))
                pool)
             tls.RequireAndVerifyClientCert), None,
     events (TLSSetting_loadTLSConfig (ServerTLSSetting c)) env
       ++ [EvReadFile (filepath_Clean (ClientCAFile c));
           EvStartWatch (ClientCAFile c)]).
Proof.
  intros Hbase Hca Hload Hreload Hwatch.
  server_run c env Hbase Hca Hload. rewrite Hreload.
  unfold startWatching. simpl. rewrite Hwatch. reflexivity.
Qed.

Lemma loadClientCAFile_outcome (c : TLSServerSetting) (env : Env) :
  (exists pool, value (TLSServerSetting_loadClientCAFile c) env = (Some pool, None))
  \/ (exists err, value (TLSServerSetting_loadClientCAFile c) env = (None, Some err)).
Proof. apply loadCert_outcome. Qed.

Lemma client_insecure (c : TLSClientSetting) (env : Env) :
  Insecure c = true -> CAFile (ClientTLSSetting c) = "" ->
  TLSClientSetting_LoadTLSConfig c env = (None, None, []).
Proof.
  intros Hins Hca. unfold TLSClientSetting_LoadTLSConfig. now rewrite Hins, Hca.
Qed.

Lemma client_guard_false (c : TLSClientSetting) :
  ~ (Insecure c = true /\ CAFile (ClientTLSSetting c) = "") ->
  Insecure c && String.eqb (CAFile (ClientTLSSetting c)) "" = false.
Proof.
  intros Hnot. apply andb_false_iff.
  destruct (Insecure c); [right | now left].
  apply String.eqb_neq. intros Hca. apply Hnot. now split.
Qed.

Lemma client_base_failed (c : TLSClientSetting) (env : Env)
    (cfg : option tls.Config) (err : error) :
  ~ (Insecure c = true /\ CAFile (ClientTLSSetting c) = "") ->
  value (TLSSetting_loadTLSConfig (ClientTLSSetting c)) env = (cfg, Some err) ->
  TLSClientSetting_LoadTLSConfig c env
  = (None, Some (fmt_Errorf_w "failed to load TLS config" err),
     events (TLSSetting_loadTLSConfig (ClientTLSSetting c)) env).
Proof.
  intros Hguard Hbase. unfold TLSClientSetting_LoadTLSConfig.
  rewrite (client_guard_false c Hguard). unfold value, events, bind in *.
  destruct (TLSSetting_loadTLSConfig (ClientTLSSetting c) env) as [loaded t].
  simpl in *. subst loaded. unfold ret. destruct cfg; simpl; now rewrite app_nil_r.
Qed.

Lemma client_built (c : TLSClientSetting) (env : Env) (base : tls.Config) :
  ~ (Insecure c = true /\ CAFile (ClientTLSSetting c) = "") ->
  value (TLSSetting_loadTLSConfig (ClientTLSSetting c)) env = (Some base, None) ->
  TLSClientSetting_LoadTLSConfig c env
  = (Some (tls.set_InsecureSkipVerify (tls.set_ServerName base (ServerName c))
             (InsecureSkipVerify c)), None,
     events (TLSSetting_loadTLSConfig (ClientTLSSetting c)) env).
Proof.
  intros Hguard Hbase. unfold TLSClientSetting_LoadTLSConfig.
  rewrite (client_guard_false c Hguard). unfold value, events, bind in *.
  destruct (TLSSetting_loadTLSConfig (ClientTLSSetting c) env) as [loaded t].
  simpl in *. subst loaded. unfold ret. simpl. now rewrite app_nil_r.
Qed.

(** With exactly one of the two files set, loadTLSConfig fails; what it
    reads and which error it returns depends on [ca_file] alone. *)
Lemma loadTLSConfig_incomplete (c : TLSSetting) (env : Env) :
  incompleteCredentials c ->
  (CAFile c = "" ->
   TLSSetting_loadTLSConfig c env = (None, Some errIncompleteCredentials, []))
  /\ (CAFile c <> "" ->
      forall pool,
        value (TLSSetting_loadCert c (CAFile c)) env = (pool, None) ->
        TLSSetting_loadTLSConfig c env
        = (None, Some errIncompleteCredentials,
           [EvReadFile (filepath_Clean (CAFile c))]))
  /\ (CAFile c <> "" ->
      forall pool err,
        value (TLSSetting_loadCert c (CAFile c)) env = (pool, Some err) ->
        TLSSetting_loadTLSConfig c env
        = (None, Some (fmt_Errorf_w "failed to load CA CertPool" err),
           [EvReadFile (filepath_Clean (CAFile c))])).
Proof.
  intros Hinc. split; [|split].
  - intros Hca. rewrite (loadTLSConfig_no_CA c env Hca).
    now apply loadTLSConfig_checked_incomplete.
  - intros Hca pool Hload.
    destruct (loadTLSConfig_CA_loaded c env pool Hca Hload) as [Hval Hev].
    unfold value, events in Hval, Hev.
    rewrite (loadTLSConfig_checked_incomplete c pool env Hinc) in Hval, Hev.
    destruct (TLSSetting_loadTLSConfig c env) as [res t]. simpl in *. now subst.
  - intros Hca pool err Hload. now apply (loadTLSConfig_CA_failed c env pool err).
Qed.
End BuilderProperties.

Section BuilderClaims.
Context `{CryptoLib}.

(** C3 (amended). With exactly one of cert_file and key_file set, the
    server builder fails, and so does the client builder unless insecure
    is set and ca_file is empty, where it returns the nil context with a
    nil error and reads nothing. Without a ca_file the failure is the
    incomplete-credential error, wrapped by the builder, and nothing is
    read. With a ca_file that file is read first and is the only file
    read: when its load succeeds the failure is the incomplete-credential
    error, when its load fails it is the CA load error. *)
Theorem incomplete_credentials_outcome (s : TLSServerSetting) (k : TLSClientSetting)
    (env : Env) :
  incompleteCredentials (ServerTLSSetting s) ->
  incompleteCredentials (ClientTLSSetting k) ->
  (CAFile (ServerTLSSetting s) = "" ->
   TLSServerSetting_LoadTLSConfig s env
   = (None, Some (fmt_Errorf_w "failed to load TLS config" errIncompleteCredentials), []))
  /\ (CAFile (ServerTLSSetting s) <> "" ->
      forall pool,
        value (TLSSetting_loadCert (ServerTLSSetting s) (CAFile (ServerTLSSetting s))) env
        = (pool, None) ->
        TLSServerSetting_LoadTLSConfig s env
        = (None, Some (fmt_Errorf_w "failed to load TLS config" errIncompleteCredentials),
           [EvReadFile (filepath_Clean (CAFile (ServerTLSSetting s)))]))
  /\ (CAFile (ServerTLSSetting s) <> "" ->
      forall pool err,
        value (TLSSetting_loadCert (ServerTLSSetting s) (CAFile (ServerTLSSetting s))) env
        = (pool, Some err) ->
        TLSServerSetting_LoadTLSConfig s env
        = (None, Some (fmt_Errorf_w "failed to load TLS config"
                         (fmt_Errorf_w "failed to load CA CertPool" err)),
           [EvReadFile (filepath_Clean (CAFile (ServerTLSSetting s)))]))
  /\ (CAFile (ClientTLSSetting k) = "" -> Insecure k = true ->
      TLSClientSetting_LoadTLSConfig k env = (None, None, []))
  /\ (CAFile (ClientTLSSetting k) = "" -> Insecure k = false ->
      TLSClientSetting_LoadTLSConfig k env
      = (None, Some (fmt_Errorf_w "failed to load TLS config" errIncompleteCredentials),
         []))
  /\ (CAFile (ClientTLSSetting k) <> "" ->
      forall pool,
        value (TLSSetting_loadCert (ClientTLSSetting k) (CAFile (ClientTLSSetting k))) env
        = (pool, None) ->
        TLSClientSetting_LoadTLSConfig k env
        = (None, Some (fmt_Errorf_w "failed to load TLS config" errIncompleteCredentials),
           [EvReadFile (filepath_Clean (CAFile (ClientTLSSetting k)))]))
  /\ (CAFile (ClientTLSSetting k) <> "" ->
      forall pool err,
        value (TLSSetting_loadCert (ClientTLSSetting k) (CAFile (ClientTLSSetting k))) env
        = (pool, Some err) ->
        TLSClientSetting_LoadTLSConfig k env
        = (None, Some (fmt_Errorf_w "failed to load TLS config"
                         (fmt_Errorf_w "failed to load CA CertPool" err)),
           [EvReadFile (filepath_Clean (CAFile (ClientTLSSetting k)))])).
Proof.
  intros Hs Hk.
  destruct (loadTLSConfig_incomplete (ServerTLSSetting s) env Hs) as [Hs1 [Hs2 Hs3]].
  destruct (loadTLSConfig_incomplete (ClientTLSSetting k) env Hk) as [Hk1 [Hk2 Hk3]].
  repeat split.
  - intros Hca.
    rewrite (server_base_failed s env None errIncompleteCredentials);
      unfold value, events; now rewrite (Hs1 Hca).
  - intros Hca pool Hload.
    rewrite (server_base_failed s env None errIncompleteCredentials);
      unfold value, events; now rewrite (Hs2 Hca pool Hload).
  - intros Hca pool err Hload.
    rewrite (server_base_failed s env None
               (fmt_Errorf_w "failed to load CA CertPool" err));
      unfold value, events; now rewrite (Hs3 Hca pool err Hload).
  - intros Hca Hins. now apply client_insecure.
  - intros Hca Hins.
    rewrite (client_base_failed k env None errIncompleteCredentials);
      unfold value, events; try now rewrite (Hk1 Hca).
    intros [Htrue _]. congruence.
  - intros Hca pool Hload.
    rewrite (client_base_failed k env None errIncompleteCredentials);
      unfold value, events; try now rewrite (Hk2 Hca pool Hload).
    tauto.
  - intros Hca pool err Hload.
    rewrite (client_base_failed k env None
               (fmt_Errorf_w "failed to load CA CertPool" err));
      unfold value, events; try now rewrite (Hk3 Hca pool err Hload).
    tauto.
Qed.

(** C4. With insecure set and an empty ca_file the client builder returns
    the nil context with a nil error (and reads nothing). For every
    other client policy it returns either a context with a nil error, in
    which every field is assigned from the policy (the base context of
    its TLSSetting, the server name, the skip-verify flag, no
    client-authentication fields), or a nil context with the wrapped
    error; no other combination occurs. *)
Theorem client_context_nil_or_complete (c : TLSClientSetting) (env : Env) :
  (Insecure c = true -> CAFile (ClientTLSSetting c) = "" ->
   TLSClientSetting_LoadTLSConfig c env = (None, None, []))
  /\ (~ (Insecure c = true /\ CAFile (ClientTLSSetting c) = "") ->
      (exists cfg,
          value (TLSClientSetting_LoadTLSConfig c) env = (Some cfg, None)
          /\ baseContext (ClientTLSSetting c) env cfg
          /\ tls.ServerName cfg = ServerName c
          /\ tls.InsecureSkipVerify cfg = InsecureSkipVerify c
          /\ tls.GetConfigForClient cfg = None
          /\ tls.ClientCAs cfg = None
          /\ tls.ClientAuth cfg = tls.NoClientCert)
      \/ (exists err,
             value (TLSClientSetting_LoadTLSConfig c) env
             = (None, Some (fmt_Errorf_w "failed to load TLS config" err))
             /\ value (TLSSetting_loadTLSConfig (ClientTLSSetting c)) env
                = (None, Some err))).
Proof.
  split; [apply client_insecure|].
  intros Hguard.
  destruct (loadTLSConfig_outcome (ClientTLSSetting c) env)
    as [[base Hbase] | [err [Hbase _]]].
  - left. eexists. unfold value at 1. rewrite (client_built c env base Hguard Hbase).
    split; [reflexivity|].
    apply loadTLSConfig_built in Hbase.
    destruct Hbase as [Hb [_ [_ [Hhook [Hcas Hauth]]]]].
    unfold baseContext in *. simpl. tauto.
  - right. exists err. split; [|exact Hbase]. unfold value at 1.
    now rewrite (client_base_failed c env None err Hguard Hbase).
Qed.

(** C5. Every context the server builder returns has, when
    client_ca_file is set, client authentication set to
    require-and-verify and the pool loaded from that file installed as
    its client CAs; when client_ca_file is empty it has no
    client-certificate requirement, no client CAs and no per-connection
    hook. A context is returned whenever the base context builds and,
    with client_ca_file set, the client-CA load succeeds and the watch,
    if requested, starts. *)
Theorem server_client_auth (c : TLSServerSetting) (env : Env) :
  (forall cfg,
      value (TLSServerSetting_LoadTLSConfig c) env = (Some cfg, None) ->
      baseContext (ServerTLSSetting c) env cfg
      /\ (ClientCAFile c <> "" ->
          tls.ClientAuth cfg = tls.RequireAndVerifyClientCert
          /\ exists pool,
              tls.ClientCAs cfg = Some pool
              /\ value (TLSServerSetting_loadClientCAFile c) env = (Some pool, None))
      /\ (ClientCAFile c = "" ->
          tls.ClientAuth cfg = tls.NoClientCert
          /\ tls.ClientCAs cfg = None
          /\ tls.GetConfigForClient cfg = None))
  /\ (forall base pool,
        value (TLSSetting_loadTLSConfig (ServerTLSSetting c)) env = (Some base, None) ->
        ClientCAFile c <> "" ->
        value (TLSServerSetting_loadClientCAFile c) env = (Some pool, None) ->
        ReloadClientCAFile c = false \/ Watcher env (ClientCAFile c) = None ->
        exists cfg,
          value (TLSServerSetting_LoadTLSConfig c) env = (Some cfg, None))
  /\ (forall base,
        value (TLSSetting_loadTLSConfig (ServerTLSSetting c)) env = (Some base, None) ->
        ClientCAFile c = "" ->
        value (TLSServerSetting_LoadTLSConfig c) env = (Some base, None)).
Proof.
  split; [|split].
  - intros cfg Hcfg.
    destruct (loadTLSConfig_outcome (ServerTLSSetting c) env)
      as [[base Hbase] | [err [Hbase _]]].
    2:{ unfold value in Hcfg at 1.
        rewrite (server_base_failed c env None err Hbase) in Hcfg. discriminate. }
    pose proof (loadTLSConfig_built _ _ _ Hbase)
      as [Hb [_ [_ [Hhook [Hcas Hauth]]]]].
    destruct (String.eqb (ClientCAFile c) "") eqn:Hca.
    + apply String.eqb_eq in Hca. unfold value in Hcfg at 1.
      rewrite (server_no_client_CA c env base Hbase Hca) in Hcfg.
      inversion Hcfg; subst cfg. split; [exact Hb|]. split; [congruence | tauto].
    + apply String.eqb_neq in Hca.
      destruct (loadClientCAFile_outcome c env) as [[pool Hpool] | [err Hpool]].
      2:{ unfold value in Hcfg at 1.
          rewrite (server_client_CA_failed c env base None err Hbase Hca Hpool) in Hcfg.
          discriminate. }
      assert (Hgoal : forall cfg',
                 tls.ClientAuth cfg' = tls.RequireAndVerifyClientCert ->
                 tls.ClientCAs cfg' = Some pool ->
                 baseContext (ServerTLSSetting c) env base ->
                 tls.RootCAs cfg' = tls.RootCAs base ->
                 tls.GetCertificate cfg' = tls.GetCertificate base ->
                 tls.GetClientCertificate cfg' = tls.GetClientCertificate base ->
                 tls.MinVersion cfg' = tls.MinVersion base ->
                 tls.MaxVersion cfg' = tls.MaxVersion base ->
                 baseContext (ServerTLSSetting c) env cfg'
                 /\ (ClientCAFile c <> "" ->
                     tls.ClientAuth cfg' = tls.RequireAndVerifyClientCert
                     /\ exists pool0,
                         tls.ClientCAs cfg' = Some pool0
                         /\ value (TLSServerSetting_loadClientCAFile c) env
                            = (Some pool0, None))
                 /\ (ClientCAFile c = "" ->
                     tls.ClientAuth cfg' = tls.NoClientCert
                     /\ tls.ClientCAs cfg' = None
                     /\ tls.GetConfigForClient cfg' = None)).
      { intros cfg' Ha Hc Hbc Hr Hg Hgc Hmin Hmax. split; [|split].
        - unfold baseContext in *. rewrite Hr, Hg, Hgc, Hmin, Hmax. exact Hbc.
        - intros _. split; [exact Ha|]. now exists pool.
        - intros Hempty. contradiction. }
      destruct (ReloadClientCAFile c) eqn:Hreload.
      * destruct (Watcher env (ClientCAFile c)) as [err|] eqn:Hwatch.
        -- unfold value in Hcfg at 1.
           rewrite (server_watch_failed c env base (Some pool) err
                      Hbase Hca Hpool Hreload Hwatch) in Hcfg.
           discriminate.
        -- unfold value in Hcfg at 1.
           rewrite (server_watched_client_CA c env base (Some pool)
                      Hbase Hca Hpool Hreload Hwatch) in Hcfg.
           inversion Hcfg; subst cfg. now apply Hgoal.
      * unfold value in Hcfg at 1.
        rewrite (server_static_client_CA c env base (Some pool)
                   Hbase Hca Hpool Hreload) in Hcfg.
        inversion Hcfg; subst cfg. now apply Hgoal.
  - intros base pool Hbase Hca Hpool Hwatch.
    destruct (ReloadClientCAFile c) eqn:Hreload.
    + destruct Hwatch as [Hfalse | Hwatch]; [discriminate|].
      eexists. unfold value at 1.
      now rewrite (server_watched_client_CA c env base (Some pool)
                     Hbase Hca Hpool Hreload Hwatch).
    + eexists. unfold value at 1.
      now rewrite (server_static_client_CA c env base (Some pool)
                     Hbase Hca Hpool Hreload).
  - intros base Hbase Hca. unfold value at 1.
    now rewrite (server_no_client_CA c env base Hbase Hca).
Qed.

(** C10. With client_ca_file set and client_ca_file_reload false the
    server builder starts no file watch, whatever it returns; a context
    it returns has no per-connection configuration hook, and its client
    CAs are the pool loaded from client_ca_file while building. The
    build reads that file once. *)
Theorem server_without_reload_is_static (c : TLSServerSetting) (env : Env) :
  ClientCAFile c <> "" ->
  ReloadClientCAFile c = false ->
  noWatch (events (TLSServerSetting_LoadTLSConfig c) env)
  /\ forall cfg,
      value (TLSServerSetting_LoadTLSConfig c) env = (Some cfg, None) ->
      tls.GetConfigForClient cfg = None
      /\ (exists pool,
             tls.ClientCAs cfg = Some pool
             /\ value (TLSServerSetting_loadClientCAFile c) env = (Some pool, None))
      /\ events (TLSServerSetting_LoadTLSConfig c) env
         = events (TLSSetting_loadTLSConfig (ServerTLSSetting c)) env
             ++ [EvReadFile (filepath_Clean (ClientCAFile c))].
Proof.
  intros Hca Hreload.
  pose proof (loadTLSConfig_noWatch (ServerTLSSetting c) env) as Hquiet.
  assert (Hread : noWatch (events (TLSSetting_loadTLSConfig (ServerTLSSetting c)) env
                             ++ [EvReadFile (filepath_Clean (ClientCAFile c))])).
  { apply noWatch_app; [exact Hquiet|]. intros path [Heq | []]. discriminate. }
  destruct (loadTLSConfig_outcome (ServerTLSSetting c) env)
    as [[base Hbase] | [err [Hbase _]]].
  2:{ split.
      - unfold events at 1. now rewrite (server_base_failed c env None err Hbase).
      - intros cfg Hcfg. unfold value in Hcfg at 1.
        rewrite (server_base_failed c env None err Hbase) in Hcfg. discriminate. }
  pose proof (loadTLSConfig_built _ _ _ Hbase) as [_ [_ [_ [Hhook _]]]].
  destruct (loadClientCAFile_outcome c env) as [[pool Hpool] | [err Hpool]].
  - pose proof (server_static_client_CA c env base (Some pool)
                  Hbase Hca Hpool Hreload) as Hrun.
    split.
    + unfold events at 1. now rewrite Hrun.
    + intros cfg Hcfg. unfold value in Hcfg at 1. unfold events at 1.
      rewrite Hrun in *. inversion Hcfg; subst cfg. simpl.
      split; [exact Hhook|]. split; [now exists pool | reflexivity].
  - pose proof (server_client_CA_failed c env base None err Hbase Hca Hpool) as Hrun.
    split.
    + unfold events at 1. now rewrite Hrun.
    + intros cfg Hcfg. unfold value in Hcfg at 1. rewrite Hrun in Hcfg. discriminate.
Qed.
End BuilderClaims.

(** C6. convertVersion returns the caller's default for the empty string
    (TLS 1.2 for the default of min_version, 0 for the default of
    max_version), the protocol constant for each of 1.0, 1.1, 1.2 and 1.3,
    and 0 with an unsupported-version error for every other string. It is
    a function of its two arguments and of the constant table alone:
    its model takes no environment and yields no event. A context that
    loadTLSConfig returns for settings with an empty min_version
    (max_version) has TLS 1.2 (0) as its minimum (maximum) version. *)
Theorem convertVersion_resolves (v : string) (defaultVersion : Z) :
  convertVersion "" defaultVersion = (defaultVersion, None)
  /\ convertVersion "" defaultMinTLSVersion = (tls.VersionTLS12, None)
  /\ convertVersion "" defaultMaxTLSVersion = (0, None)
  /\ convertVersion "1.0" defaultVersion = (tls.VersionTLS10, None)
  /\ convertVersion "1.1" defaultVersion = (tls.VersionTLS11, None)
  /\ convertVersion "1.2" defaultVersion = (tls.VersionTLS12, None)
  /\ convertVersion "1.3" defaultVersion = (tls.VersionTLS13, None)
  /\ (v <> "" -> v <> "1.0" -> v <> "1.1" -> v <> "1.2" -> v <> "1.3" ->
      convertVersion v defaultVersion
      = (0, Some (fmt_Errorf_q "unsupported TLS version" v)))
  /\ (forall (lib : CryptoLib) (c : TLSSetting) (env : Env) (cfg : tls.Config),
        value (TLSSetting_loadTLSConfig c) env = (Some cfg, None) ->
        (MinVersion c = "" -> tls.MinVersion cfg = tls.VersionTLS12)
        /\ (MaxVersion c = "" -> tls.MaxVersion cfg = 0)).
Proof.
  do 7 (split; [reflexivity|]). split.
  - intros Hempty H10 H11 H12 H13. unfold convertVersion.
    rewrite (eqb_empty_false v Hempty).
    now rewrite (tlsVersions_other v H10 H11 H12 H13).
  - intros lib c env cfg Hcfg.
    apply loadTLSConfig_built in Hcfg. destruct Hcfg as [[Hmin [Hmax _]] _].
    split; intros Hempty; rewrite Hempty in *.
    + now inversion Hmin.
    + now inversion Hmax.
Qed.

(** The claim of C3 as worded fails on three counts. A client with a
    certificate, no key, insecure set and no ca_file gets the nil context
    and no error. A server with a certificate, no key and a ca_file reads
    the CA file before it rejects the pair. When that CA file cannot be
    read the error is the CA load error, not the incomplete-credential
    error. *)
Lemma incomplete_credentials_not_checked_first :
  incompleteCredentials (ClientTLSSetting insecureHalfClient)
  /\ value (@TLSClientSetting_LoadTLSConfig sampleLib insecureHalfClient) (envAt 0 diskA)
     = (None, None)
  /\ incompleteCredentials (ServerTLSSetting (halfServer "ca.pem"))
  /\ events (@TLSServerSetting_LoadTLSConfig sampleLib (halfServer "ca.pem"))
       (envAt 0 diskA)
     = [EvReadFile "ca.pem"]
  /\ value (@TLSServerSetting_LoadTLSConfig sampleLib (halfServer "ca.pem"))
       (envAt 0 diskNone)
     = (None,
        Some (fmt_Errorf_w "failed to load TLS config"
                (fmt_Errorf_w "failed to load CA CertPool"
                   (fmt_Errorf_s_w "failed to load CA" "ca.pem" noSuchFile))))
  /\ value (@TLSServerSetting_LoadTLSConfig sampleLib (halfServer "ca.pem"))
       (envAt 0 diskNone)
     <> (None, Some (fmt_Errorf_w "failed to load TLS config" errIncompleteCredentials)).
Proof.
  split; [right; split; [discriminate | reflexivity]|].
  split; [reflexivity|].
  split; [right; split; [discriminate | reflexivity]|].
  split; [reflexivity|].
  split; [reflexivity | discriminate].
Qed.

Lemma incomplete_credentials_outcome_witness :
  incompleteCredentials (ServerTLSSetting (halfServer "ca.pem"))
  /\ incompleteCredentials (ClientTLSSetting (halfClient ""))
  /\ @TLSServerSetting_LoadTLSConfig sampleLib (halfServer "ca.pem") (envAt 0 diskA)
     = (None, Some (fmt_Errorf_w "failed to load TLS config" errIncompleteCredentials),
        [EvReadFile "ca.pem"])
  /\ @TLSClientSetting_LoadTLSConfig sampleLib (halfClient "") (envAt 0 diskA)
     = (None, Some (fmt_Errorf_w "failed to load TLS config" errIncompleteCredentials),
        []).
Proof.
  assert (Hs : incompleteCredentials (ServerTLSSetting (halfServer "ca.pem")))
    by (right; split; [discriminate | reflexivity]).
  assert (Hk : incompleteCredentials (ClientTLSSetting (halfClient "")))
    by (right; split; [discriminate | reflexivity]).
  destruct (@incomplete_credentials_outcome sampleLib (halfServer "ca.pem")
              (halfClient "") (envAt 0 diskA) Hs Hk)
    as [_ [Hserver [_ [_ [Hclient _]]]]].
  split; [exact Hs|]. split; [exact Hk|]. split.
  - apply (Hserver ltac:(discriminate) (Some [pem "CA"])). reflexivity.
  - apply Hclient; reflexivity.
Defined.

Lemma client_context_nil_or_complete_witness :
  @TLSClientSetting_LoadTLSConfig sampleLib insecureClient (envAt 0 diskA)
  = (None, None, [])
  /\ ((exists cfg,
          value (@TLSClientSetting_LoadTLSConfig sampleLib secureClient) (envAt 0 diskA)
          = (Some cfg, None)
          /\ baseContext (ClientTLSSetting secureClient) (envAt 0 diskA) cfg
          /\ tls.ServerName cfg = "collector.example"
          /\ tls.InsecureSkipVerify cfg = true
          /\ tls.GetConfigForClient cfg = None
          /\ tls.ClientCAs cfg = None
          /\ tls.ClientAuth cfg = tls.NoClientCert)
      \/ (exists err,
             value (@TLSClientSetting_LoadTLSConfig sampleLib secureClient) (envAt 0 diskA)
             = (None, Some (fmt_Errorf_w "failed to load TLS config" err))
             /\ value (@TLSSetting_loadTLSConfig sampleLib (ClientTLSSetting secureClient))
                  (envAt 0 diskA)
                = (None, Some err))).
Proof.
  split.
  - apply (proj1 (@client_context_nil_or_complete sampleLib insecureClient
                    (envAt 0 diskA))); reflexivity.
  - apply (proj2 (@client_context_nil_or_complete sampleLib secureClient
                    (envAt 0 diskA))).
    intros [Hins _]. discriminate.
Defined.

Lemma server_client_auth_witness :
  exists cfg,
    value (@TLSServerSetting_LoadTLSConfig sampleLib (mtlsServer true)) (envAt 0 diskA)
    = (Some cfg, None)
    /\ tls.ClientAuth cfg = tls.RequireAndVerifyClientCert
    /\ exists pool,
        tls.ClientCAs cfg = Some pool
        /\ value (@TLSServerSetting_loadClientCAFile sampleLib (mtlsServer true))
             (envAt 0 diskA)
           = (Some pool, None).
Proof.
  eexists. split; [reflexivity|].
  refine (proj1 (proj2 (proj1 (@server_client_auth sampleLib (mtlsServer true)
                                  (envAt 0 diskA)) _ eq_refl)) _).
  discriminate.
Defined.

Lemma server_without_reload_is_static_witness :
  ClientCAFile (mtlsServer false) <> ""
  /\ ReloadClientCAFile (mtlsServer false) = false
  /\ noWatch (events (@TLSServerSetting_LoadTLSConfig sampleLib (mtlsServer false))
                (envAt 0 diskA))
  /\ exists cfg,
      value (@TLSServerSetting_LoadTLSConfig sampleLib (mtlsServer false)) (envAt 0 diskA)
      = (Some cfg, None)
      /\ tls.GetConfigForClient cfg = None
      /\ exists pool,
          tls.ClientCAs cfg = Some pool
          /\ value (@TLSServerSetting_loadClientCAFile sampleLib (mtlsServer false))
               (envAt 0 diskA)
             = (Some pool, None).
Proof.
  split; [discriminate|]. split; [reflexivity|].
  destruct (@server_without_reload_is_static sampleLib (mtlsServer false)
              (envAt 0 diskA) ltac:(discriminate) eq_refl) as [Hquiet Hcfg].
  split; [exact Hquiet|].
  eexists. split; [reflexivity|].
  destruct (Hcfg _ eq_refl) as [Hhook [Hpool _]]. split; [exact Hhook | exact Hpool].
Defined.

Lemma convertVersion_resolves_witness :
  convertVersion "1.4" defaultMinTLSVersion
  = (0, Some (fmt_Errorf_q "unsupported TLS version" "1.4"))
  /\ convertVersion "" defaultMinTLSVersion = (0x0303, None)
  /\ convertVersion "1.3" defaultMaxTLSVersion = (0x0304, None).
Proof.
  pose proof (convertVersion_resolves "1.4" defaultMinTLSVersion)
    as [_ [Hmin [_ [_ [_ [_ [_ [Hother _]]]]]]]].
  split; [apply Hother; discriminate|]. split; [exact Hmin|].
  exact (proj1 (proj2 (proj2 (proj2 (proj2 (proj2 (proj2
           (convertVersion_resolves "" defaultMaxTLSVersion)))))))).
Defined.

(** ** Concurrent calls *)

Section Interleaving.
Context `{CryptoLib}.

Lemma total_insert (f : call -> nat) (ps : list call) (i : nat) (p q : call) :
  ps !! i = Some p ->
  (total f (<[i := q]> ps) + f p = total f ps + f q)%nat.
Proof.
  revert i. induction ps as [|a rest IH]; intros i Hi; [discriminate|].
  destruct i as [|i]; simpl in *.
  - inversion Hi; subst. lia.
  - specialize (IH i Hi). lia.
Qed.

Lemma total_lookup_le (f : call -> nat) (ps : list call) (i : nat) (p : call) :
  ps !! i = Some p -> (f p <= total f ps)%nat.
Proof.
  revert i. induction ps as [|a rest IH]; intros i Hi; [discriminate|].
  destruct i as [|i]; simpl in *.
  - inversion Hi; subst. lia.
  - specialize (IH i Hi). lia.
Qed.

Lemma total_lookup2_le (f : call -> nat) (ps : list call) (i j : nat) (p q : call) :
  i <> j -> ps !! i = Some p -> ps !! j = Some q -> (f p + f q <= total f ps)%nat.
Proof.
  revert i j. induction ps as [|a rest IH]; intros i j Hne Hi Hj; [discriminate|].
  destruct i as [|i], j as [|j]; simpl in *; try congruence.
  - inversion Hi; subst. pose proof (total_lookup_le f rest j q Hj). lia.
  - inversion Hj; subst. pose proof (total_lookup_le f rest i p Hi). lia.
  - assert (Hne' : i <> j) by congruence. specialize (IH i j Hne' Hi Hj). lia.
Qed.

Lemma total_zero (f : call -> nat) (ps : list call) :
  (forall p, In p ps -> f p = 0%nat) -> total f ps = 0%nat.
Proof.
  induction ps as [|a rest IH]; intros Hall; simpl; [reflexivity|].
  rewrite (Hall a (or_introl eq_refl)), IH; [reflexivity|].
  intros p Hp. apply Hall. now right.
Qed.

Lemma total_le (f g : call -> nat) (ps : list call) :
  (forall p, (f p <= g p)%nat) -> (total f ps <= total g ps)%nat.
Proof.
  intros Hle. induction ps as [|a rest IH]; simpl; [lia|]. specialize (Hle a). lia.
Qed.

Lemma total_replicate (f : call -> nat) (n : nat) (p : call) :
  total f (replicate n p) = (n * f p)%nat.
Proof. induction n as [|n IH]; simpl; [reflexivity|]. rewrite IH. lia. Qed.


Lemma invariant_start (r0 : certReloader.t) (c0 : Certificate) (n : nat) :
  certReloader.cert r0 = Some c0 -> invariant r0 (start r0 n).
Proof.
  intros Hc0. constructor; simpl; unfold count; rewrite ?total_replicate; simpl;
    try reflexivity; try lia.
  - intros tid now Hlook. apply lookup_replicate in Hlook. destruct Hlook; discriminate.
  - exists c0. split; [exact Hc0 | now left].
  - apply Forall_replicate. exact I.
Qed.

Lemma step_inv (s s' : System) (tid : nat) (env : Env) :
  step s tid env = Some s' ->
  exists p p' sh',
    threads s !! tid = Some p
    /\ stepCall tid env (shared s) p = Some (sh', p')
    /\ s' = {| shared := sh'; threads := <[tid := p']> (threads s) |}.
Proof.
  unfold step. destruct (threads s !! tid) as [p|] eqn:Hp; [|discriminate].
  destruct (stepCall tid env (shared s) p) as [[sh' p']|] eqn:Hstep; [|discriminate].
  intros Heq. inversion Heq. now exists p, p', sh'.
Qed.

Lemma pending_other (r0 : certReloader.t) (ps : list call) (tid : nat) (p' : call)
    (log : list (nat * Certificate * Time)) :
  atStoreNext p' = false ->
  (forall tid0 now,
      ps !! tid0 = Some (AtStoreNext now) ->
      exists c, last log = Some (tid0, c, Time_Add now (certReloader.ReloadInterval r0))) ->
  forall tid0 now,
    <[tid := p']> ps !! tid0 = Some (AtStoreNext now) ->
    exists c, last log = Some (tid0, c, Time_Add now (certReloader.ReloadInterval r0)).
Proof.
  intros Hp' Hold tid0 now Hlook.
  destruct (decide (tid = tid0)) as [-> | Hne].
  - destruct (decide (tid0 < length ps)%nat) as [Hlt | Hge].
    + rewrite list_lookup_insert_eq in Hlook by exact Hlt.
      inversion Hlook; subst p'. discriminate.
    + rewrite list_insert_ge in Hlook by lia. now apply Hold.
  - rewrite list_lookup_insert_ne in Hlook by exact Hne. now apply Hold.
Qed.

Lemma calls_insert (r0 : certReloader.t) (ps : list call) (tid : nat) (p' : call) :
  Forall (callValid r0) ps -> callValid r0 p' -> Forall (callValid r0) (<[tid := p']> ps).
Proof. intros Hall Hp'. now apply Forall_insert. Qed.

Lemma invariant_step (r0 : certReloader.t) (s s' : System) (tid : nat) (env : Env) :
  invariant r0 s -> step s tid env = Some s' -> invariant r0 s'.
Proof.
  intros Hinv Hstep.
  destruct (step_inv _ _ _ _ Hstep) as (p & p' & sh' & Hp & Hcall & ->).
  pose proof (total_insert (fun p => if holdsRead p then 1 else 0)%nat _ _ _ p' Hp) as HR.
  pose proof (total_insert (fun p => if announced p then 1 else 0)%nat _ _ _ p' Hp) as HA.
  pose proof (total_insert (fun p => if holdsWrite p then 1 else 0)%nat _ _ _ p' Hp) as HW.
  pose proof (total_insert (fun p => if atStoreNext p then 1 else 0)%nat _ _ _ p' Hp) as HN.
  pose proof (total_le (fun p => if holdsWrite p then 1 else 0)%nat
                (fun p => if announced p then 1 else 0)%nat (threads s)) as HWA.
  assert (HWA' : (count holdsWrite (threads s) <= count announced (threads s))%nat).
  { apply HWA. intros q. destruct q; simpl; lia. }
  clear HWA.
  pose proof (total_lookup_le (fun p => if holdsRead p then 1 else 0)%nat _ _ _ Hp) as HRp.
  pose proof (total_lookup_le (fun p => if holdsWrite p then 1 else 0)%nat _ _ _ Hp) as HWp.
  pose proof (total_lookup_le (fun p => if announced p then 1 else 0)%nat _ _ _ Hp) as HAp.
  pose proof (proj1 (Forall_lookup _ _) (inv_calls _ _ Hinv) _ _ Hp) as Hvalid.
  destruct Hinv as [Ir Iw Ie Icf Ikf Iint Icert Inext Ipend Icache Icalls].
  destruct s as [[r [rd wr] log] ps]; simpl in *. unfold count in *.
  destruct p; simpl in Hcall;
    repeat match type of Hcall with
           | context [if ?b then _ else _] => destruct b eqn:?
           | context [match ?x with inl _ => _ | inr _ => _ end] => destruct x eqn:?
           end;
    inversion Hcall; subst; clear Hcall; simpl in *;
    repeat match goal with
           | Heq : Nat.eqb _ _ = true |- _ => apply Nat.eqb_eq in Heq
           end;
    constructor; simpl; unfold count; try assumption; try lia;
    try (apply pending_other; [reflexivity | assumption]);
    try (apply calls_insert; [assumption | simpl; try exact I; try assumption]).
  - (* AtLoad, loaded *)
    right. exists env. now rewrite <- Icf, <- Ikf.
  - (* AtLoad, failed *)
    right. eexists. reflexivity.
  - (* AtStoreCert: the cache is the last store *)
    unfold lastStored. now rewrite last_snoc.
  - (* AtStoreCert: the pending store is this one *)
    intros tid0 now0 Hlook.
    destruct (decide (tid = tid0)) as [-> | Hne].
    + assert (Hlt : (tid0 < length ps)%nat) by (eapply lookup_lt_Some; eauto).
      rewrite list_lookup_insert_eq in Hlook by exact Hlt.
      inversion Hlook; subst now0. exists c. rewrite last_snoc. now rewrite Iint.
    + rewrite list_lookup_insert_ne in Hlook by exact Hne.
      pose proof (total_lookup2_le (fun p => if announced p then 1 else 0)%nat
                    ps tid tid0 _ _ Hne Hp Hlook) as Htwo.
      simpl in Htwo. destruct wr; lia.
  - (* AtStoreCert: the cache holds a valid identity *)
    exists c. split; [reflexivity | exact Hvalid].
  - (* AtStoreNext: the pair is complete *)
    intros _. destruct (Ipend tid now Hp) as [c Hlast].
    unfold lastStored. rewrite Hlast. simpl. now rewrite Iint.
  - (* AtReturnLoaded *)
    destruct Icache as [c [Hc Hv]]. rewrite Hc. left. now exists c.
  - (* AtUnlock *)
    destruct wr; lia.
  - (* AtReturnCached *)
    destruct Icache as [c [Hc Hv]]. rewrite Hc. left. now exists c.
Qed.

Lemma invariant_run (r0 : certReloader.t) (schedule : list (nat * Env)) :
  forall s s', invariant r0 s -> run s schedule = Some s' -> invariant r0 s'.
Proof.
  induction schedule as [|[tid env] rest IH]; intros s s' Hinv Hrun; simpl in Hrun.
  - now inversion Hrun; subst.
  - destruct (step s tid env) as [s1|] eqn:Hstep; [|discriminate].
    apply (IH s1 s'); [|exact Hrun]. now apply (invariant_step r0 s s1 tid env).
Qed.


Lemma stepCall_enabled (tid : nat) (env : Env) (sh : Shared) (p : call) :
  enabled (lock sh) p = true <-> exists next, stepCall tid env sh p = Some next.
Proof.
  destruct p; simpl;
    repeat match goal with
           | |- context [if ?b then _ else _] => destruct b
           | |- context [match ?x with inl _ => _ | inr _ => _ end] => destruct x
           end;
    simpl; split; intros Hen;
    solve [reflexivity | discriminate | eexists; reflexivity
           | destruct Hen; discriminate].
Qed.

Lemma stepCall_remaining (tid : nat) (env : Env) (sh sh' : Shared) (p p' : call) :
  stepCall tid env sh p = Some (sh', p') -> (remaining p' < remaining p)%nat.
Proof.
  destruct p; simpl; intros Hstep;
    repeat match type of Hstep with
           | context [if ?b then _ else _] => destruct b
           | context [match ?x with inl _ => _ | inr _ => _ end] => destruct x
           end;
    inversion Hstep; subst; simpl; lia.
Qed.

Lemma step_remaining (s s' : System) (tid : nat) (env : Env) :
  step s tid env = Some s' ->
  (total remaining (threads s') < total remaining (threads s))%nat.
Proof.
  intros Hstep.
  destruct (step_inv _ _ _ _ Hstep) as (p & p' & sh' & Hp & Hcall & ->). simpl.
  pose proof (total_insert remaining _ _ _ p' Hp).
  pose proof (stepCall_remaining _ _ _ _ _ _ Hcall). lia.
Qed.

Lemma run_remaining (schedule : list (nat * Env)) :
  forall s s',
    run s schedule = Some s' ->
    (length schedule + total remaining (threads s') <= total remaining (threads s))%nat.
Proof.
  induction schedule as [|[tid env] rest IH]; intros s s' Hrun; simpl in *.
  - inversion Hrun; subst. lia.
  - destruct (step s tid env) as [s1|] eqn:Hstep; [|discriminate].
    pose proof (step_remaining _ _ _ _ Hstep). specialize (IH s1 s' Hrun). lia.
Qed.

Lemma find_enabled (f : call -> bool) (ps : list call) :
  (exists tid p, ps !! tid = Some p /\ f p = true)
  \/ (forall p, In p ps -> f p = false).
Proof.
  induction ps as [|a rest IH].
  - right. intros p [].
  - destruct (f a) eqn:Ha.
    + left. exists 0%nat, a. now split.
    + destruct IH as [[tid [p [Hp Hf]]] | Hnone].
      * left. exists (S tid), p. now split.
      * right. intros p [<- | Hin]; [exact Ha | now apply Hnone].
Qed.

(** Some call can execute its next statement, unless all have returned. *)
Lemma progress (r0 : certReloader.t) (s : System) :
  invariant r0 s ->
  allReturned s
  \/ exists tid, forall env : Env, exists s', step s tid env = Some s'.
Proof.
  intros Hinv.
  destruct (find_enabled (enabled (lock (shared s))) (threads s))
    as [[tid [p [Hp Hen]]] | Hnone].
  - right. exists tid. intros env.
    destruct (proj1 (stepCall_enabled tid env (shared s) p) Hen) as [[sh' p'] Hnext].
    unfold step. rewrite Hp, Hnext. eexists. reflexivity.
  - left.
    assert (Hread : count holdsRead (threads s) = 0%nat).
    { apply total_zero. intros p Hin. specialize (Hnone p Hin).
      destruct p; simpl in *; try discriminate; reflexivity. }
    assert (Hreaders : readers (lock (shared s)) = 0%nat).
    { now rewrite (inv_readers _ _ Hinv). }
    assert (Hann : count announced (threads s) = 0%nat).
    { apply total_zero. intros p Hin. specialize (Hnone p Hin).
      destruct p; simpl in *; try discriminate; try reflexivity.
      rewrite Hreaders in Hnone. discriminate. }
    assert (Hwriting : writing (lock (shared s)) = false).
    { pose proof (inv_writer _ _ Hinv) as Hw. rewrite Hann in Hw.
      destruct (writing (lock (shared s))); [discriminate | reflexivity]. }
    unfold allReturned. apply forallb_forall. intros p Hin. specialize (Hnone p Hin).
    destruct p; simpl in *; try discriminate; try reflexivity;
      first [rewrite Hwriting in Hnone | rewrite Hreaders in Hnone]; discriminate.
Qed.

(** From every state the calls reach, they can all run to their return. *)
Lemma completion (r0 : certReloader.t) (env : Env) (m : nat) :
  forall s,
    (total remaining (threads s) <= m)%nat ->
    invariant r0 s ->
    exists rest s', run s rest = Some s' /\ allReturned s'.
Proof.
  induction m as [|m IH]; intros s Hm Hinv.
  - destruct (progress r0 s Hinv) as [Hall | [tid Hstep]].
    + exists [], s. now split.
    + destruct (Hstep env) as [s1 Hs1].
      pose proof (step_remaining _ _ _ _ Hs1). lia.
  - destruct (progress r0 s Hinv) as [Hall | [tid Hstep]].
    + exists [], s. now split.
    + destruct (Hstep env) as [s1 Hs1].
      pose proof (step_remaining _ _ _ _ Hs1) as Hlt.
      destruct (IH s1 ltac:(lia) (invariant_step r0 s s1 tid env Hinv Hs1))
        as [rest [s' [Hrun Hall]]].
      exists ((tid, env) :: rest), s'. split; [|exact Hall].
      simpl. now rewrite Hs1.
Qed.


(** C8. Any number of calls of GetCertificate on one reloader whose cache
    is set, interleaved statement by statement in any order the lock
    allows, with the clock and the disk changing freely between the
    statements. In every state they reach: some call can execute its next
    statement unless all have returned, and from there all calls can run
    to their return (no deadlock); a schedule has at most 11 statements
    per call, so no call runs forever; every call that returned has
    returned a whole identity (the constructed one or one a load returned)
    with a nil error, or nil with the reload error; at most one call is
    the announced writer, and while one holds the write lock no call holds
    the read lock, so no call reads the cache between the two stores of a
    reload; the cached certificate is always the one stored last, and
    whenever no call holds the write lock (in particular when a call holds
    the read lock, and when all have returned) the cached pair is exactly
    the pair of the last store. *)
Theorem concurrent_calls_return (r0 : certReloader.t) (c0 : Certificate) (n : nat)
    (schedule : list (nat * Env)) (s : System) :
  certReloader.cert r0 = Some c0 ->
  run (start r0 n) schedule = Some s ->
  (allReturned s
   \/ exists tid, forall env : Env, exists s', step s tid env = Some s')
  /\ (forall env : Env, exists rest s', run s rest = Some s' /\ allReturned s')
  /\ (length schedule + total remaining (threads s) <= 11 * n)%nat
  /\ (forall tid res, threads s !! tid = Some (Returned res) -> validResult r0 res)
  /\ (count announced (threads s) <= 1)%nat
  /\ ((1 <= count holdsWrite (threads s))%nat -> count holdsRead (threads s) = 0%nat)
  /\ (exists c, certReloader.cert (reloader (shared s)) = Some c /\ validCert r0 c)
  /\ certReloader.cert (reloader (shared s)) = fst (lastStored r0 (stores (shared s)))
  /\ (count holdsWrite (threads s) = 0%nat ->
      certReloader.nextReload (reloader (shared s))
      = snd (lastStored r0 (stores (shared s))))
  /\ (allReturned s -> count holdsWrite (threads s) = 0%nat).
Proof.
  intros Hc0 Hrun.
  pose proof (invariant_run r0 schedule _ _ (invariant_start r0 c0 n Hc0) Hrun) as Hinv.
  split; [now apply (progress r0)|].
  split; [intros env; now apply (completion r0 env (total remaining (threads s)))|].
  split.
  { pose proof (run_remaining schedule _ _ Hrun) as Hbound. simpl in Hbound.
    rewrite total_replicate in Hbound. simpl in Hbound. lia. }
  split.
  { intros tid res Hlook.
    exact (proj1 (Forall_lookup _ _) (inv_calls _ _ Hinv) tid _ Hlook). }
  split.
  { pose proof (inv_writer _ _ Hinv) as Hw.
    destruct (writing (lock (shared s))); lia. }
  split.
  { intros Hwrite. rewrite <- (inv_readers _ _ Hinv). now apply (inv_exclusive _ _ Hinv). }
  split; [exact (inv_cache _ _ Hinv)|].
  split; [exact (inv_cert _ _ Hinv)|].
  split.
  { intros Hnone. apply (inv_next _ _ Hinv).
    pose proof (total_le (fun p => if atStoreNext p then 1 else 0)%nat
                  (fun p => if holdsWrite p then 1 else 0)%nat (threads s)) as Hle.
    unfold count in *.
    assert (total (fun p => if atStoreNext p then 1 else 0)%nat (threads s)
            <= total (fun p => if holdsWrite p then 1 else 0)%nat (threads s))%nat.
    { apply Hle. intros p. destruct p; simpl; lia. }
    lia. }
  intros Hall. apply total_zero. intros p Hin.
  unfold allReturned in Hall. rewrite forallb_forall in Hall. specialize (Hall p Hin).
  destruct p; simpl in *; try discriminate; reflexivity.
Qed.


(** A call that runs alone goes through its statements without blocking
    and ends as the sequential GetCertificate does: same results, same
    reloader, the lock free again. *)
Lemma solo_call (r : certReloader.t) (env : Env) :
  exists k log,
    run (start r 1) (replicate k (0%nat, env))
    = Some {| shared := {| reloader := snd (value (GetCertificate r) env);
                           lock := {| readers := 0; writing := false |};
                           stores := log |};
              threads := [Returned (fst (value (GetCertificate r) env))] |}.
Proof.
  destruct (reloadDue r (Now env)) eqn:Hdue.
  - destruct (value (tls_LoadX509KeyPair (certReloader.CertFile r)
                       (certReloader.KeyFile r)) env) as [c|err] eqn:Hload.
    + exists 11%nat. eexists. unfold value at 1 2.
      rewrite (GetCertificate_due_loaded r env c Hdue Hload).
      simpl. unfold step. simpl. rewrite Hdue. simpl. rewrite Hload. simpl.
      reflexivity.
    + exists 8%nat. eexists. unfold value at 1 2.
      rewrite (GetCertificate_due_failed r env err Hdue Hload).
      simpl. unfold step. simpl. rewrite Hdue. simpl. rewrite Hload. simpl.
      reflexivity.
  - exists 5%nat. eexists. unfold value.
    rewrite (GetCertificate_not_due r env Hdue).
    simpl. unfold step. simpl. rewrite Hdue. simpl. reflexivity.
Qed.

End Interleaving.

Lemma concurrent_calls_return_witness :
  certReloader.cert builtReloader = Some certA
  /\ run (start builtReloader 2) twoCallers = Some twoCallersEnd
  /\ allReturned twoCallersEnd
  /\ (length twoCallers + total remaining (threads twoCallersEnd) <= 11 * 2)%nat
  /\ (forall tid res,
        threads twoCallersEnd !! tid = Some (Returned res) ->
        validResult builtReloader res)
  /\ certReloader.cert (reloader (shared twoCallersEnd))
     = fst (lastStored builtReloader (stores (shared twoCallersEnd)))
  /\ certReloader.nextReload (reloader (shared twoCallersEnd))
     = snd (lastStored builtReloader (stores (shared twoCallersEnd))).
Proof.
  destruct (@concurrent_calls_return sampleLib builtReloader certA 2 twoCallers
              twoCallersEnd eq_refl eq_refl)
    as (_ & _ & Hbound & Hres & _ & _ & _ & Hcert & Hnext & Hfree).
  split; [reflexivity|]. split; [reflexivity|]. split; [reflexivity|].
  split; [exact Hbound|]. split; [exact Hres|]. split; [exact Hcert|].
  apply Hnext. apply Hfree. reflexivity.
Defined.

(** * Further properties *)

(** ** The reloader, call after call *)

Section ReloaderExtras.
Context `{CryptoLib}.

Lemma LoadX509KeyPair_reads_cert (certFile keyFile : string) (env : Env) :
  In (EvReadFile certFile) (events (tls_LoadX509KeyPair certFile keyFile) env).
Proof.
  destruct (LoadX509KeyPair_events certFile keyFile env) as [-> | ->]; now left.
Qed.


Lemma negative_interval_always_due (envs : list Env) :
  forall (r : certReloader.t) (t : Time),
    certReloader.ReloadInterval r < 0 ->
    certReloader.nextReload r < t ->
    clockFrom t envs ->
    Forall (fun res => In (EvReadFile (certReloader.CertFile r)) (snd res))
      (callResults r envs)
    /\ length (callResults r envs) = length envs.
Proof.
  induction envs as [|env rest IH]; intros r t Hneg Hnext Hclock; simpl.
  - split; [constructor | reflexivity].
  - destruct Hclock as [Hle Hrest].
    assert (Hdue : reloadDue r (Now env) = true).
    { apply reloadDue_spec. split; lia. }
    destruct (value (tls_LoadX509KeyPair (certReloader.CertFile r)
                       (certReloader.KeyFile r)) env) as [c|err] eqn:Hload.
    + rewrite (GetCertificate_due_loaded r env c Hdue Hload).
      match goal with
      | |- context [callResults ?r1 rest] =>
          destruct (IH r1 (Now env)) as [IHres IHlen];
            [exact Hneg | unfold Time_Add; simpl; lia | exact Hrest |]
      end.
      split; [|simpl; now rewrite IHlen].
      constructor; [simpl; apply LoadX509KeyPair_reads_cert | exact IHres].
    + rewrite (GetCertificate_due_failed r env err Hdue Hload).
      destruct (IH r (Now env)) as [IHres IHlen]; [exact Hneg | lia | exact Hrest |].
      split; [|simpl; now rewrite IHlen].
      constructor; [simpl; apply LoadX509KeyPair_reads_cert | exact IHres].
Qed.

(** X2. A reloader constructed with a negative reload interval reloads on
    every call: each call made after the construction, the clock not
    going back, reads the certificate file again. *)
Theorem negative_interval_reloads_every_call (certFile keyFile : string)
    (interval : Duration) (env0 : Env) (r0 : certReloader.t) (envs : list Env) :
  value (newCertReloader certFile keyFile interval) env0 = (Some r0, None) ->
  interval < 0 ->
  clockFrom (Now env0) envs ->
  Forall (fun res => In (EvReadFile certFile) (snd res)) (callResults r0 envs)
  /\ length (callResults r0 envs) = length envs.
Proof.
  intros Hnew Hneg Hclock.
  destruct (newCertReloader_loaded _ _ _ _ _ Hnew) as [c [_ Hr]].
  assert (Hfile : certReloader.CertFile r0 = certFile) by now rewrite Hr.
  rewrite <- Hfile.
  apply (negative_interval_always_due envs r0 (Now env0)); [| |exact Hclock];
    rewrite Hr; simpl; unfold Time_Add; lia.
Qed.


Lemma GetCertificate_keeps_configuration (r : certReloader.t) (env : Env) :
  certReloader.CertFile (snd (value (GetCertificate r) env)) = certReloader.CertFile r
  /\ certReloader.KeyFile (snd (value (GetCertificate r) env)) = certReloader.KeyFile r
  /\ certReloader.ReloadInterval (snd (value (GetCertificate r) env))
     = certReloader.ReloadInterval r
  /\ (certReloader.nextReload (snd (value (GetCertificate r) env))
      = certReloader.nextReload r
      \/ certReloader.nextReload (snd (value (GetCertificate r) env))
         = Time_Add (Now env) (certReloader.ReloadInterval r)).
Proof.
  unfold value.
  destruct (reloadDue r (Now env)) eqn:Hdue.
  - destruct (value (tls_LoadX509KeyPair (certReloader.CertFile r)
                       (certReloader.KeyFile r)) env) as [c|err] eqn:Hload.
    + rewrite (GetCertificate_due_loaded r env c Hdue Hload). simpl. tauto.
    + rewrite (GetCertificate_due_failed r env err Hdue Hload). simpl. tauto.
  - rewrite (GetCertificate_not_due r env Hdue). simpl. tauto.
Qed.

(** X3. Calls of GetCertificate never change the file paths and the
    interval of the reloader; the next-reload instant after any calls is
    the original one or the instant of one of the calls plus the
    interval. *)
Theorem calls_keep_configuration (envs : list Env) (r : certReloader.t) :
  certReloader.CertFile (calls r envs) = certReloader.CertFile r
  /\ certReloader.KeyFile (calls r envs) = certReloader.KeyFile r
  /\ certReloader.ReloadInterval (calls r envs) = certReloader.ReloadInterval r
  /\ (certReloader.nextReload (calls r envs) = certReloader.nextReload r
      \/ exists env,
          In env envs
          /\ certReloader.nextReload (calls r envs)
             = Time_Add (Now env) (certReloader.ReloadInterval r)).
Proof.
  revert r. induction envs as [|env rest IH]; intros r; simpl.
  - tauto.
  - destruct (GetCertificate_keeps_configuration r env) as [Hc [Hk [Hi Hn]]].
    destruct (IH (snd (value (GetCertificate r) env))) as [IHc [IHk [IHi IHn]]].
    rewrite IHc, IHk, IHi, Hc, Hk, Hi. repeat split.
    destruct IHn as [IHn | [env' [Hin IHn]]].
    + rewrite IHn. destruct Hn as [Hn | Hn]; [now left|].
      right. exists env. split; [now left | exact Hn].
    + right. exists env'. split; [now right|]. now rewrite IHn, Hi.
Qed.

(** X4. On a reloader whose cache is set, after any calls, a call returns
    either a certificate with a nil error, and it is the certificate the
    cache holds after the call, or a nil certificate with an error; never
    nil with nil, never a certificate with an error. *)
Theorem GetCertificate_certificate_xor_error (r : certReloader.t) (c0 : Certificate)
    (envs : list Env) (env : Env) :
  certReloader.cert r = Some c0 ->
  (exists c,
      fst (value (GetCertificate (calls r envs)) env) = (Some c, None)
      /\ certReloader.cert (snd (value (GetCertificate (calls r envs)) env)) = Some c)
  \/ (exists err,
        fst (value (GetCertificate (calls r envs)) env) = (None, Some err)).
Proof.
  intros Hset.
  destruct (calls_keep_cache_set envs r (ex_intro _ c0 Hset)) as [c1 Hc1].
  unfold value.
  destruct (reloadDue (calls r envs) (Now env)) eqn:Hdue.
  - destruct (value (tls_LoadX509KeyPair (certReloader.CertFile (calls r envs))
                       (certReloader.KeyFile (calls r envs))) env)
      as [c|err] eqn:Hload.
    + rewrite (GetCertificate_due_loaded _ env c Hdue Hload). left. now exists c.
    + rewrite (GetCertificate_due_failed _ env err Hdue Hload). right. eexists.
      reflexivity.
  - rewrite (GetCertificate_not_due _ env Hdue). left. exists c1. simpl.
    now rewrite Hc1.
Qed.

End ReloaderExtras.

(** ** The stages of the builders *)

Section BuilderExtras.
Context `{CryptoLib}.

Lemma complete_credentials (c : TLSSetting) :
  ~ incompleteCredentials c ->
  (CertFile c = "" /\ KeyFile c = "") \/ (CertFile c <> "" /\ KeyFile c <> "").
Proof.
  intros Hnot. unfold incompleteCredentials in Hnot.
  destruct (decide (CertFile c = "")) as [Hc | Hc],
           (decide (KeyFile c = "")) as [Hk | Hk]; tauto.
Qed.

Lemma checked_without_identity (c : TLSSetting) (certPool : option CertPool) (env : Env) :
  CertFile c = "" -> KeyFile c = "" ->
  loadTLSConfig_checked c certPool env = (assembleConfig c certPool None, []).
Proof.
  intros Hc Hk. unfold loadTLSConfig_checked, assembleConfig. rewrite Hc, Hk. simpl.
  unfold bind, ret. simpl.
  destruct (convertVersion (MinVersion c) defaultMinTLSVersion) as [minTLS [e1|]];
    [reflexivity|].
  destruct (convertVersion (MaxVersion c) defaultMaxTLSVersion) as [maxTLS [e2|]];
    reflexivity.
Qed.

Lemma checked_with_identity (c : TLSSetting) (certPool : option CertPool) (env : Env) :
  CertFile c <> "" -> KeyFile c <> "" ->
  loadTLSConfig_checked c certPool env
  = (match value (newCertReloader (CertFile c) (KeyFile c) (ReloadInterval c)) env with
     | (_, Some err) => (None, Some (fmt_Errorf_w "failed to load TLS cert and key" err))
     | (reloader, None) => assembleConfig c certPool reloader
     end,
     events (newCertReloader (CertFile c) (KeyFile c) (ReloadInterval c)) env).
Proof.
  intros Hc Hk. unfold loadTLSConfig_checked, assembleConfig.
  rewrite (eqb_empty_false _ Hc), (eqb_empty_false _ Hk). simpl.
  unfold bind, ret, value, events.
  destruct (newCertReloader (CertFile c) (KeyFile c) (ReloadInterval c) env)
    as [[made [e0|]] t]; simpl; [now rewrite app_nil_r|].
  destruct (convertVersion (MinVersion c) defaultMinTLSVersion) as [minTLS [e1|]];
    simpl; [now rewrite app_nil_r|].
  destruct (convertVersion (MaxVersion c) defaultMaxTLSVersion) as [maxTLS [e2|]];
    simpl; now rewrite app_nil_r.
Qed.

(** [loadTLSConfig] once the CA stage has passed, in one equation. *)
Lemma loadTLSConfig_after_CA (c : TLSSetting) (env : Env) :
  CAFile c = "" \/ (exists pool, value (TLSSetting_loadCert c (CAFile c)) env
                                 = (Some pool, None)) ->
  exists certPool,
    (if String.eqb (CAFile c) "" then certPool = None
     else value (TLSSetting_loadCert c (CAFile c)) env = (certPool, None))
    /\ value (TLSSetting_loadTLSConfig c) env
       = value (loadTLSConfig_checked c certPool) env
    /\ events (TLSSetting_loadTLSConfig c) env
       = (if String.eqb (CAFile c) "" then []
          else [EvReadFile (filepath_Clean (CAFile c))])
         ++ events (loadTLSConfig_checked c certPool) env.
Proof.
  destruct (String.eqb (CAFile c) "") eqn:Hca.
  - intros _. apply String.eqb_eq in Hca. exists None. split; [reflexivity|].
    unfold value, events. now rewrite (loadTLSConfig_no_CA c env Hca).
  - apply String.eqb_neq in Hca. intros [Hempty | [pool Hpool]]; [contradiction|].
    exists (Some pool). split; [exact Hpool|].
    destruct (loadTLSConfig_CA_loaded c env (Some pool) Hca Hpool) as [Hv He].
    split; [exact Hv | exact He].
Qed.


Lemma LoadX509KeyPair_loaded_events (certFile keyFile : string) (env : Env)
    (c : Certificate) :
  value (tls_LoadX509KeyPair certFile keyFile) env = inl c ->
  events (tls_LoadX509KeyPair certFile keyFile) env
  = [EvReadFile certFile; EvReadFile keyFile].
Proof.
  unfold value, events, tls_LoadX509KeyPair, bind, os_ReadFile, ret. simpl.
  destruct (Disk env certFile); simpl; [|discriminate].
  destruct (Disk env keyFile); simpl; [reflexivity | discriminate].
Qed.

Lemma assembleConfig_built (c : TLSSetting) (certPool : option CertPool)
    (reloader : option certReloader.t) (cfg : tls.Config) :
  assembleConfig c certPool reloader = (Some cfg, None) ->
  convertVersion (MinVersion c) defaultMinTLSVersion = (tls.MinVersion cfg, None)
  /\ convertVersion (MaxVersion c) defaultMaxTLSVersion = (tls.MaxVersion cfg, None).
Proof.
  unfold assembleConfig.
  destruct (convertVersion (MinVersion c) defaultMinTLSVersion) as [minTLS [e1|]];
    [discriminate|].
  destruct (convertVersion (MaxVersion c) defaultMaxTLSVersion) as [maxTLS [e2|]];
    [discriminate|].
  intros Heq. inversion Heq. now split.
Qed.

(** X5. loadCert reads exactly one file, the cleaned path. It fails with
    the read error, wrapped with the path as given, when the file cannot
    be read; it fails with a parse error when the PEM data yields no
    certificate; otherwise it returns a pool made of that file's
    certificates alone. *)
Theorem loadCert_outcomes (c : TLSSetting) (caPath : string) (env : Env) :
  events (TLSSetting_loadCert c caPath) env = [EvReadFile (filepath_Clean caPath)]
  /\ (forall err,
        Disk env (filepath_Clean caPath) = inr err ->
        value (TLSSetting_loadCert c caPath) env
        = (None, Some (fmt_Errorf_s_w "failed to load CA" caPath err)))
  /\ (forall pem,
        Disk env (filepath_Clean caPath) = inl pem ->
        snd (AppendCertsFromPEM NewCertPool pem) = false ->
        value (TLSSetting_loadCert c caPath) env
        = (None, Some (fmt_Errorf_s "failed to parse CA" caPath)))
  /\ (forall pem,
        Disk env (filepath_Clean caPath) = inl pem ->
        snd (AppendCertsFromPEM NewCertPool pem) = true ->
        value (TLSSetting_loadCert c caPath) env
        = (Some (fst (AppendCertsFromPEM NewCertPool pem)), None)).
Proof.
  split; [apply loadCert_events|].
  unfold value, TLSSetting_loadCert, bind, os_ReadFile, ret. simpl.
  split; [|split].
  - intros err Hdisk. now rewrite Hdisk.
  - intros pem Hdisk Hok. rewrite Hdisk.
    destruct (AppendCertsFromPEM NewCertPool pem) as [pool ok]. simpl in *.
    now subst ok.
  - intros pem Hdisk Hok. rewrite Hdisk.
    destruct (AppendCertsFromPEM NewCertPool pem) as [pool ok]. simpl in *.
    now subst ok.
Qed.

Lemma loadTLSConfig_stages_passed (c : TLSSetting) (env : Env) (cfg : tls.Config) :
  value (TLSSetting_loadTLSConfig c) env = (Some cfg, None) ->
  (CAFile c = ""
   \/ exists pool, value (TLSSetting_loadCert c (CAFile c)) env = (Some pool, None))
  /\ ~ incompleteCredentials c
  /\ (CertFile c = ""
      \/ exists r,
          value (newCertReloader (CertFile c) (KeyFile c) (ReloadInterval c)) env
          = (Some r, None))
  /\ (exists minTLS,
         convertVersion (MinVersion c) defaultMinTLSVersion = (minTLS, None))
  /\ (exists maxTLS,
         convertVersion (MaxVersion c) defaultMaxTLSVersion = (maxTLS, None)).
Proof.
  intros Hcfg. apply loadTLSConfig_built in Hcfg.
  destruct Hcfg as [[Hmin [Hmax [Hca Hid]]] _].
  split; [|split; [|split; [|split]]].
  - destruct (String.eqb (CAFile c) "") eqn:Heq.
    + left. now apply String.eqb_eq.
    + right. destruct Hca as [pool [_ Hpool]]. now exists pool.
  - intros [[Hc Hk] | [Hc Hk]].
    + rewrite Hc in Hid. simpl in Hid. destruct Hid as [Hk' _]. contradiction.
    + rewrite (eqb_empty_false _ Hc) in Hid. destruct Hid as [Hk' _]. contradiction.
  - destruct (String.eqb (CertFile c) "") eqn:Heq.
    + left. now apply String.eqb_eq.
    + right. destruct Hid as [_ [r [_ [_ Hr]]]]. now exists r.
  - now exists (tls.MinVersion cfg).
  - now exists (tls.MaxVersion cfg).
Qed.

(** X6. loadTLSConfig returns a context exactly when the CA file, if
    set, loads; cert_file and key_file are both set or both empty; the
    pair, if set, loads; and both version strings resolve. Nothing else
    is required: the resolved minimum may exceed the resolved maximum. *)
Theorem loadTLSConfig_succeeds_iff (c : TLSSetting) (env : Env) :
  (exists cfg, value (TLSSetting_loadTLSConfig c) env = (Some cfg, None))
  <-> (CAFile c = ""
       \/ exists pool, value (TLSSetting_loadCert c (CAFile c)) env = (Some pool, None))
      /\ ~ incompleteCredentials c
      /\ (CertFile c = ""
          \/ exists r,
              value (newCertReloader (CertFile c) (KeyFile c) (ReloadInterval c)) env
              = (Some r, None))
      /\ (exists minTLS,
             convertVersion (MinVersion c) defaultMinTLSVersion = (minTLS, None))
      /\ (exists maxTLS,
             convertVersion (MaxVersion c) defaultMaxTLSVersion = (maxTLS, None)).
Proof.
  split.
  - intros [cfg Hcfg]. now apply (loadTLSConfig_stages_passed c env cfg).
  - intros [Hca [Hpair [Hid [[minTLS Hmin] [maxTLS Hmax]]]]].
    destruct (loadTLSConfig_after_CA c env Hca) as [certPool [_ [-> _]]].
    assert (Hassemble : forall reloader,
               exists cfg, assembleConfig c certPool reloader = (Some cfg, None)).
    { intros reloader. unfold assembleConfig. rewrite Hmin, Hmax. eexists. reflexivity. }
    destruct (complete_credentials c Hpair) as [[Hc Hk] | [Hc Hk]].
    + unfold value. rewrite (checked_without_identity c certPool env Hc Hk). simpl.
      apply Hassemble.
    + destruct Hid as [Hempty | [r Hr]]; [contradiction|].
      unfold value at 1. rewrite (checked_with_identity c certPool env Hc Hk).
      simpl. rewrite Hr. apply Hassemble.
Qed.

(** X7. A loadTLSConfig that returns a context has read the CA file (the
    cleaned path) if one is set, then the certificate file and the key
    file (the paths as given) if they are set, each once and in this
    order, and nothing else. *)
Theorem loadTLSConfig_read_order (c : TLSSetting) (env : Env) (cfg : tls.Config) :
  value (TLSSetting_loadTLSConfig c) env = (Some cfg, None) ->
  events (TLSSetting_loadTLSConfig c) env = expectedReads c.
Proof.
  intros Hcfg.
  destruct (loadTLSConfig_stages_passed c env cfg Hcfg) as [Hca [Hpair [Hid _]]].
  destruct (loadTLSConfig_after_CA c env Hca) as [certPool [_ [_ ->]]].
  unfold expectedReads. f_equal.
  destruct (complete_credentials c Hpair) as [[Hc Hk] | [Hc Hk]].
  - unfold events. rewrite (checked_without_identity c certPool env Hc Hk).
    now rewrite Hc.
  - destruct Hid as [Hempty | [r Hr]]; [contradiction|].
    unfold events at 1. rewrite (checked_with_identity c certPool env Hc Hk). simpl.
    rewrite (eqb_empty_false _ Hc), newCertReloader_events.
    destruct (newCertReloader_loaded _ _ _ _ _ Hr) as [crt [Hload _]].
    now apply (LoadX509KeyPair_loaded_events _ _ env crt).
Qed.


(** X8. The version strings are checked last, the minimum before the
    maximum. Once the CA stage has passed and the pairing is complete: a
    failing load of the identity is reported whatever the version strings
    are; an unsupported min_version is reported whatever max_version is,
    and only after the certificate and key files were read; an
    unsupported max_version is reported when min_version resolves. *)
Theorem version_errors_come_last (c : TLSSetting) (env : Env) :
  (CAFile c = ""
   \/ exists pool, value (TLSSetting_loadCert c (CAFile c)) env = (Some pool, None)) ->
  ~ incompleteCredentials c ->
  (forall reloader err,
      CertFile c <> "" ->
      value (newCertReloader (CertFile c) (KeyFile c) (ReloadInterval c)) env
      = (reloader, Some err) ->
      value (TLSSetting_loadTLSConfig c) env
      = (None, Some (fmt_Errorf_w "failed to load TLS cert and key" err)))
  /\ (forall minTLS err,
        (CertFile c = ""
         \/ exists r,
             value (newCertReloader (CertFile c) (KeyFile c) (ReloadInterval c)) env
             = (Some r, None)) ->
        convertVersion (MinVersion c) defaultMinTLSVersion = (minTLS, Some err) ->
        value (TLSSetting_loadTLSConfig c) env
        = (None, Some (fmt_Errorf_w "invalid TLS min_version" err))
        /\ events (TLSSetting_loadTLSConfig c) env = expectedReads c)
  /\ (forall minTLS maxTLS err,
        (CertFile c = ""
         \/ exists r,
             value (newCertReloader (CertFile c) (KeyFile c) (ReloadInterval c)) env
             = (Some r, None)) ->
        convertVersion (MinVersion c) defaultMinTLSVersion = (minTLS, None) ->
        convertVersion (MaxVersion c) defaultMaxTLSVersion = (maxTLS, Some err) ->
        value (TLSSetting_loadTLSConfig c) env
        = (None, Some (fmt_Errorf_w "invalid TLS max_version" err))
        /\ events (TLSSetting_loadTLSConfig c) env = expectedReads c).
Proof.
  intros Hca Hpair.
  destruct (loadTLSConfig_after_CA c env Hca) as [certPool [_ [Hval Hev]]].
  rewrite Hval, Hev. unfold expectedReads.
  assert (Hreads : forall r,
             CertFile c <> "" -> KeyFile c <> "" ->
             value (newCertReloader (CertFile c) (KeyFile c) (ReloadInterval c)) env
             = (Some r, None) ->
             events (loadTLSConfig_checked c certPool) env
             = [EvReadFile (CertFile c); EvReadFile (KeyFile c)]).
  { intros r Hc Hk Hr. unfold events at 1.
    rewrite (checked_with_identity c certPool env Hc Hk). simpl.
    rewrite newCertReloader_events.
    destruct (newCertReloader_loaded _ _ _ _ _ Hr) as [crt [Hload _]].
    now apply (LoadX509KeyPair_loaded_events _ _ env crt). }
  destruct (complete_credentials c Hpair) as [[Hc Hk] | [Hc Hk]].
  - assert (Hv : value (loadTLSConfig_checked c certPool) env
                 = assembleConfig c certPool None).
    { unfold value. now rewrite (checked_without_identity c certPool env Hc Hk). }
    assert (He : events (loadTLSConfig_checked c certPool) env = []).
    { unfold events. now rewrite (checked_without_identity c certPool env Hc Hk). }
    rewrite Hv, He, Hc. simpl. unfold assembleConfig.
    split; [intros reloader err Hne; contradiction|]. split.
    + intros minTLS err _ Hmin. now rewrite Hmin.
    + intros minTLS maxTLS err _ Hmin Hmax. now rewrite Hmin, Hmax.
  - rewrite (eqb_empty_false _ Hc).
    split; [|split].
    + intros reloader err _ Hr. unfold value at 1.
      rewrite (checked_with_identity c certPool env Hc Hk). simpl. now rewrite Hr.
    + intros minTLS err [Hempty | [r Hr]] Hmin; [contradiction|].
      rewrite (Hreads r Hc Hk Hr). split; [|reflexivity].
      unfold value at 1. rewrite (checked_with_identity c certPool env Hc Hk). simpl.
      rewrite Hr. unfold assembleConfig. now rewrite Hmin.
    + intros minTLS maxTLS err [Hempty | [r Hr]] Hmin Hmax; [contradiction|].
      rewrite (Hreads r Hc Hk Hr). split; [|reflexivity].
      unfold value at 1. rewrite (checked_with_identity c certPool env Hc Hk). simpl.
      rewrite Hr. unfold assembleConfig. now rewrite Hmin, Hmax.
Qed.

(** X9. When ca_file is set the insecure flag has no effect on the
    client builder: it returns the same results and performs the same
    events whether the flag is set or not. *)
Theorem insecure_ignored_with_CA (c : TLSClientSetting) (b : bool) (env : Env) :
  CAFile (ClientTLSSetting c) <> "" ->
  TLSClientSetting_LoadTLSConfig (withInsecure c b) env
  = TLSClientSetting_LoadTLSConfig c env.
Proof.
  intros Hca. unfold TLSClientSetting_LoadTLSConfig, withInsecure. simpl.
  rewrite (eqb_empty_false _ Hca), !andb_false_r. reflexivity.
Qed.

(** X10. The server builder does nothing beyond loadTLSConfig unless the
    base context was built and client_ca_file is set. When the base
    context fails it returns that error wrapped; when client_ca_file is
    empty it returns the base context as it is; in both cases its events
    are those of loadTLSConfig (the client-CA file is not read, no watch
    is started), and client_ca_file_reload has no effect. *)
Theorem server_adds_nothing (c : TLSServerSetting) (b : bool) (env : Env) :
  (forall cfg err,
      value (TLSSetting_loadTLSConfig (ServerTLSSetting c)) env = (cfg, Some err) ->
      TLSServerSetting_LoadTLSConfig c env
      = (None, Some (fmt_Errorf_w "failed to load TLS config" err),
         events (TLSSetting_loadTLSConfig (ServerTLSSetting c)) env)
      /\ TLSServerSetting_LoadTLSConfig (withReloadClientCAFile c b) env
         = TLSServerSetting_LoadTLSConfig c env)
  /\ (forall base,
        value (TLSSetting_loadTLSConfig (ServerTLSSetting c)) env = (Some base, None) ->
        ClientCAFile c = "" ->
        TLSServerSetting_LoadTLSConfig c env
        = (Some base, None, events (TLSSetting_loadTLSConfig (ServerTLSSetting c)) env)
        /\ TLSServerSetting_LoadTLSConfig (withReloadClientCAFile c b) env
           = TLSServerSetting_LoadTLSConfig c env).
Proof.
  split.
  - intros cfg err Hbase. split; [now apply (server_base_failed c env cfg)|].
    rewrite (server_base_failed c env cfg err Hbase).
    now rewrite (server_base_failed (withReloadClientCAFile c b) env cfg err Hbase).
  - intros base Hbase Hca. split; [now apply server_no_client_CA|].
    rewrite (server_no_client_CA c env base Hbase Hca).
    now rewrite (server_no_client_CA (withReloadClientCAFile c b) env base Hbase Hca).
Qed.

End BuilderExtras.

Lemma tlsVersions_lookup (v : string) (val : Z) :
  tlsVersions !! v = Some val ->
  (v = "1.0" /\ val = tls.VersionTLS10) \/ (v = "1.1" /\ val = tls.VersionTLS11)
  \/ (v = "1.2" /\ val = tls.VersionTLS12) \/ (v = "1.3" /\ val = tls.VersionTLS13).
Proof.
  intros Hlook.
  destruct (decide (v = "1.0")) as [-> | H10];
    [left; split; [reflexivity|]; vm_compute in Hlook; now inversion Hlook|].
  destruct (decide (v = "1.1")) as [-> | H11];
    [right; left; split; [reflexivity|]; vm_compute in Hlook; now inversion Hlook|].
  destruct (decide (v = "1.2")) as [-> | H12];
    [right; right; left; split; [reflexivity|]; vm_compute in Hlook; now inversion Hlook|].
  destruct (decide (v = "1.3")) as [-> | H13];
    [right; right; right; split; [reflexivity|]; vm_compute in Hlook; now inversion Hlook|].
  rewrite (tlsVersions_other v H10 H11 H12 H13) in Hlook. discriminate.
Qed.

(** X11. On non-empty strings convertVersion is one-to-one and ignores
    the default: two non-empty strings that resolve to the same version
    are the same string, whatever defaults were passed; and a resolved
    version of a non-empty string is a protocol constant between TLS 1.0
    and TLS 1.3, so it fits uint16. *)
Theorem convertVersion_one_to_one (v1 v2 : string) (d1 d2 val : Z) :
  v1 <> "" -> v2 <> "" ->
  convertVersion v1 d1 = (val, None) ->
  convertVersion v2 d2 = (val, None) ->
  v1 = v2 /\ tls.VersionTLS10 <= val <= tls.VersionTLS13 /\ 0 <= val < 2 ^ 16.
Proof.
  intros Hne1 Hne2. unfold convertVersion.
  rewrite (eqb_empty_false _ Hne1), (eqb_empty_false _ Hne2).
  destruct (tlsVersions !! v1) as [x1|] eqn:H1; [|discriminate].
  destruct (tlsVersions !! v2) as [x2|] eqn:H2; [|discriminate].
  intros Heq1 Heq2. inversion Heq1; inversion Heq2; subst x1 x2.
  apply tlsVersions_lookup in H1, H2.
  unfold tls.VersionTLS10, tls.VersionTLS11, tls.VersionTLS12, tls.VersionTLS13 in *.
  destruct H1 as [[-> Hv1] | [[-> Hv1] | [[-> Hv1] | [-> Hv1]]]];
    destruct H2 as [[-> Hv2] | [[-> Hv2] | [[-> Hv2] | [-> Hv2]]]];
    subst val; try discriminate; repeat split; lia.
Qed.

(** ** From the built context to the handshake; blocking *)

Section EndToEnd.
Context `{CryptoLib}.

(** X18. A context built from settings with cert_file and key_file binds
    both certificate callbacks to one reloader, whose files and interval
    are those of the settings and whose cache holds the pair read while
    building. Every call of it made up to the build instant plus the
    interval, and every call when the interval is zero, returns that pair
    and reads nothing. *)
Theorem built_context_serves_loaded_identity (c : TLSSetting) (env0 : Env)
    (cfg : tls.Config) :
  value (TLSSetting_loadTLSConfig c) env0 = (Some cfg, None) ->
  CertFile c <> "" ->
  exists r crt,
    tls.GetCertificate cfg = Some r
    /\ tls.GetClientCertificate cfg = Some r
    /\ certReloader.CertFile r = CertFile c
    /\ certReloader.KeyFile r = KeyFile c
    /\ certReloader.ReloadInterval r = ReloadInterval c
    /\ value (tls_LoadX509KeyPair (CertFile c) (KeyFile c)) env0 = inl crt
    /\ forall env,
        ReloadInterval c = 0 \/ Now env <= Time_Add (Now env0) (ReloadInterval c) ->
        GetCertificate r env = (Some crt, None, r, []).
Proof.
  intros Hcfg Hc. apply loadTLSConfig_built in Hcfg.
  destruct Hcfg as [[_ [_ [_ Hid]]] _].
  rewrite (eqb_empty_false _ Hc) in Hid.
  destruct Hid as [_ [r [Hget [Hgetc Hnew]]]].
  destruct (newCertReloader_loaded _ _ _ _ _ Hnew) as [crt [Hload Hr]].
  exists r, crt.
  split; [exact Hget|]. split; [exact Hgetc|].
  split; [now rewrite Hr|]. split; [now rewrite Hr|]. split; [now rewrite Hr|].
  split; [exact Hload|].
  intros env Hwhen. rewrite GetCertificate_not_due; [now rewrite Hr|].
  destruct (reloadDue r (Now env)) eqn:Hdue; [|reflexivity].
  apply reloadDue_spec in Hdue. rewrite Hr in Hdue. simpl in Hdue. lia.
Qed.

(** X19. A call blocks only while a reload is under way: in every state
    the concurrent calls reach in which no call has announced itself as
    the writer, every call that has not returned can execute its next
    statement, however many calls hold the read lock. *)
Theorem calls_block_only_during_reload (r0 : certReloader.t) (c0 : Certificate)
    (n : nat) (schedule : list (nat * Env)) (s : System) (tid : nat) (p : call)
    (env : Env) :
  certReloader.cert r0 = Some c0 ->
  run (start r0 n) schedule = Some s ->
  count announced (threads s) = 0%nat ->
  threads s !! tid = Some p ->
  isReturned p = false ->
  exists s', step s tid env = Some s'.
Proof.
  intros Hc0 Hrun Hnone Hp Hnot.
  pose proof (invariant_run r0 schedule _ _ (invariant_start r0 c0 n Hc0) Hrun) as Hinv.
  pose proof (inv_writer _ _ Hinv) as Hw. rewrite Hnone in Hw.
  assert (Hwriting : writing (lock (shared s)) = false).
  { destruct (writing (lock (shared s))); [discriminate | reflexivity]. }
  pose proof (total_lookup_le (fun p => if announced p then 1 else 0)%nat _ _ _ Hp)
    as Hle.
  unfold count in Hnone. rewrite Hnone in Hle.
  assert (Hen : enabled (lock (shared s)) p = true).
  { destruct p; simpl in *; try reflexivity; try discriminate; try lia;
      now rewrite Hwriting. }
  destruct (proj1 (stepCall_enabled tid env (shared s) p) Hen) as [[sh' p'] Hnext].
  unfold step. rewrite Hp, Hnext. eexists. reflexivity.
Qed.

End EndToEnd.

(** ** The stores of concurrent calls *)

Section StoreExtras.
Context `{CryptoLib}.

Lemma storeInvariant_start (r0 : certReloader.t) (n : nat) :
  storeInvariant n (start r0 n).
Proof.
  constructor; simpl.
  - apply length_replicate.
  - constructor.
  - intros tid [].
Qed.

Lemma storers_snoc (log : list (nat * Certificate * Time)) (tid : nat)
    (c : Certificate) (t : Time) :
  storers (log ++ [(tid, c, t)]) = storers log ++ [tid].
Proof. unfold storers. now rewrite map_app. Qed.

Lemma storeInvariant_step (n : nat) (s s' : System) (tid : nat) (env : Env) :
  storeInvariant n s -> step s tid env = Some s' -> storeInvariant n s'.
Proof.
  intros [Hlen Honce Hafter] Hstep.
  destruct (step_inv _ _ _ _ Hstep) as (p & p' & sh' & Hp & Hcall & ->).
  assert (Hlt : (tid < length (threads s))%nat) by (eapply lookup_lt_Some; eauto).
  assert (Hcase : (exists now c, p = AtStoreCert now c)
                  \/ (forall now c, p <> AtStoreCert now c)).
  { destruct p; try (right; discriminate). left. eauto. }
  destruct Hcase as [[now [c ->]] | Hother].
  - (* the store *)
    simpl in Hcall. inversion Hcall; subst sh' p'; clear Hcall.
    assert (Hfresh : ~ In tid (storers (stores (shared s)))).
    { intros Hin. destruct (Hafter tid Hin) as [q [Hq Hqa]].
      rewrite Hp in Hq. inversion Hq; subst q. discriminate. }
    constructor; simpl.
    + now rewrite length_insert.
    + rewrite storers_snoc. apply NoDup_app. split; [exact Honce|].
      split; [|apply NoDup_singleton].
      intros x Hx Hx'. apply list_elem_of_In in Hx.
      apply list_elem_of_singleton in Hx'. subst x. contradiction.
    + intros tid0 Hin. rewrite storers_snoc in Hin. apply in_app_or in Hin.
      destruct (decide (tid0 = tid)) as [-> | Hne].
      * exists (AtStoreNext now). split; [|reflexivity].
        now apply list_lookup_insert_eq.
      * destruct Hin as [Hin | [Heq | []]]; [|congruence].
        destruct (Hafter tid0 Hin) as [q [Hq Hqa]]. exists q. split; [|exact Hqa].
        rewrite list_lookup_insert_ne by congruence. exact Hq.
  - (* any other statement: the stores are unchanged *)
    assert (Hstores : stores sh' = stores (shared s)).
    { destruct p; simpl in Hcall;
        repeat match type of Hcall with
               | context [if ?b then _ else _] => destruct b
               | context [match ?x with inl _ => _ | inr _ => _ end] => destruct x
               end;
        inversion Hcall; subst; try reflexivity.
      exfalso. eapply Hother. reflexivity. }
    assert (Hkeep : afterStore p = true -> afterStore p' = true).
    { destruct p; simpl in Hcall; try discriminate;
        repeat match type of Hcall with
               | context [if ?b then _ else _] => destruct b
               | context [match ?x with inl _ => _ | inr _ => _ end] => destruct x
               end;
        inversion Hcall; subst; simpl; try discriminate; try reflexivity;
        intros Hres; exact Hres. }
    constructor; simpl.
    + now rewrite length_insert.
    + now rewrite Hstores.
    + intros tid0 Hin. rewrite Hstores in Hin.
      destruct (Hafter tid0 Hin) as [q [Hq Hqa]].
      destruct (decide (tid0 = tid)) as [-> | Hne].
      * rewrite Hp in Hq. inversion Hq; subst q.
        exists p'. split; [now apply list_lookup_insert_eq | now apply Hkeep].
      * exists q. split; [|exact Hqa].
        rewrite list_lookup_insert_ne by congruence. exact Hq.
Qed.

Lemma storeInvariant_run (n : nat) (schedule : list (nat * Env)) :
  forall s s', storeInvariant n s -> run s schedule = Some s' -> storeInvariant n s'.
Proof.
  induction schedule as [|[tid env] rest IH]; intros s s' Hinv Hrun; simpl in Hrun.
  - now inversion Hrun; subst.
  - destruct (step s tid env) as [s1|] eqn:Hstep; [|discriminate].
    apply (IH s1 s'); [|exact Hrun]. now apply (storeInvariant_step n s s1 tid env).
Qed.

(** X12. However [n] concurrent calls are interleaved, each call stores
    to the cache at most once, so there are at most [n] stores (and at
    most [n] redundant reloads); a call that returned an error has
    stored nothing. *)
Theorem each_call_stores_at_most_once (r0 : certReloader.t) (n : nat)
    (schedule : list (nat * Env)) (s : System) :
  run (start r0 n) schedule = Some s ->
  NoDup (storers (stores (shared s)))
  /\ (length (stores (shared s)) <= n)%nat
  /\ (forall tid c err,
        threads s !! tid = Some (Returned (c, Some err)) ->
        ~ In tid (storers (stores (shared s)))).
Proof.
  intros Hrun.
  destruct (storeInvariant_run n schedule _ _ (storeInvariant_start r0 n) Hrun)
    as [Hlen Honce Hafter].
  split; [exact Honce|]. split.
  - assert (Hsub : storers (stores (shared s)) ⊆+ seq 0 n).
    { apply NoDup_submseteq; [exact Honce|]. intros tid Hin.
      apply list_elem_of_In in Hin. destruct (Hafter tid Hin) as [p [Hp _]].
      apply lookup_lt_Some in Hp. apply elem_of_seq. lia. }
    apply submseteq_length in Hsub.
    unfold storers in Hsub. rewrite length_map, length_seq in Hsub. exact Hsub.
  - intros tid c err Hret Hin. destruct (Hafter tid Hin) as [p [Hp Hpa]].
    rewrite Hret in Hp. inversion Hp; subst p. discriminate.
Qed.

(** X13. When all the concurrent calls have returned, the lock is free:
    no call returns while holding the read lock or the write lock. *)
Theorem lock_free_when_all_returned (r0 : certReloader.t) (c0 : Certificate) (n : nat)
    (schedule : list (nat * Env)) (s : System) :
  certReloader.cert r0 = Some c0 ->
  run (start r0 n) schedule = Some s ->
  allReturned s ->
  lock (shared s) = {| readers := 0; writing := false |}.
Proof.
  intros Hc0 Hrun Hall.
  pose proof (invariant_run r0 schedule _ _ (invariant_start r0 c0 n Hc0) Hrun) as Hinv.
  unfold allReturned in Hall. rewrite forallb_forall in Hall.
  assert (Hread : count holdsRead (threads s) = 0%nat).
  { apply total_zero. intros p Hin. specialize (Hall p Hin).
    destruct p; simpl in *; try discriminate; reflexivity. }
  assert (Hann : count announced (threads s) = 0%nat).
  { apply total_zero. intros p Hin. specialize (Hall p Hin).
    destruct p; simpl in *; try discriminate; reflexivity. }
  pose proof (inv_readers _ _ Hinv) as Hr. pose proof (inv_writer _ _ Hinv) as Hw.
  rewrite Hread in Hr. rewrite Hann in Hw.
  destruct (lock (shared s)) as [rd wr]. simpl in *. subst rd.
  destruct wr; [discriminate | reflexivity].
Qed.

End StoreExtras.

(** ** MockExporter *)

Section MockExporterProperties.
Context `{PLog}.

Lemma wrap64_add_l (a b : Z) : wrap64 (wrap64 a + b) = wrap64 (a + b).
Proof.
  unfold wrap64.
  replace ((a + 2 ^ 63) mod 2 ^ 64 - 2 ^ 63 + b + 2 ^ 63)
    with ((a + 2 ^ 63) mod 2 ^ 64 + b) by lia.
  rewrite Zplus_mod_idemp_l. f_equal. f_equal. lia.
Qed.

Lemma wrap64_add_r (a b : Z) : wrap64 (a + wrap64 b) = wrap64 (a + b).
Proof. rewrite Z.add_comm, wrap64_add_l. f_equal. lia. Qed.

Lemma wrap64_small (a : Z) : - 2 ^ 63 <= a < 2 ^ 63 -> wrap64 a = a.
Proof. intros Ha. unfold wrap64. rewrite Z.mod_small; lia. Qed.

Lemma wrap64_range (a : Z) : - 2 ^ 63 <= wrap64 a < 2 ^ 63.
Proof.
  unfold wrap64. pose proof (Z.mod_pos_bound (a + 2 ^ 63) (2 ^ 64)). lia.
Qed.

Lemma accepted_after_calls (cs : list exporterCall) :
  forall e,
    wrap64 (AcceptedLogCount (exporterCalls e cs))
    = wrap64 (AcceptedLogCount e + recordsConsumed cs).
Proof.
  induction cs as [|[ld|b] rest IH]; intros e; simpl.
  - f_equal. lia.
  - rewrite IH. unfold ConsumeLogs, AcceptedLogCount, atomic_AddInt64.
    destruct (MockExporter.destAvailable e =? 1); simpl;
      rewrite wrap64_add_l;
      replace (MockExporter.acceptedLogCount e + wrap64 (LogRecordCount ld)
               + recordsConsumed rest)
        with (MockExporter.acceptedLogCount e + recordsConsumed rest
              + wrap64 (LogRecordCount ld)) by lia;
      rewrite wrap64_add_r; f_equal; lia.
  - rewrite IH. unfold SetDestAvailable, AcceptedLogCount. destruct b; reflexivity.
Qed.

Lemma accepted_in_range (cs : list exporterCall) :
  forall e,
    - 2 ^ 63 <= AcceptedLogCount e < 2 ^ 63 ->
    - 2 ^ 63 <= AcceptedLogCount (exporterCalls e cs) < 2 ^ 63.
Proof.
  induction cs as [|[ld|b] rest IH]; intros e He; simpl.
  - exact He.
  - apply IH. unfold ConsumeLogs, AcceptedLogCount, atomic_AddInt64.
    destruct (MockExporter.destAvailable e =? 1); simpl; apply wrap64_range.
  - apply IH. unfold SetDestAvailable, AcceptedLogCount. destruct b; exact He.
Qed.

(** X14. The accepted count of a new exporter after any calls of
    ConsumeLogs and SetDestAvailable is the number of records of all the
    logs consumed, wrapped to int64: it does not depend on whether the
    destination was available. *)
Theorem accepted_counts_all_consumed (cs : list exporterCall) :
  AcceptedLogCount (exporterCalls NewMockExporter cs) = wrap64 (recordsConsumed cs).
Proof.
  pose proof (accepted_after_calls cs NewMockExporter) as Hsum.
  rewrite wrap64_small in Hsum.
  - rewrite Hsum. f_equal.
  - apply accepted_in_range. simpl. lia.
Qed.


Lemma exporterCalls_app (cs1 cs2 : list exporterCall) :
  forall e, exporterCalls e (cs1 ++ cs2) = exporterCalls (exporterCalls e cs1) cs2.
Proof.
  induction cs1 as [|[ld|b] rest IH]; intros e; simpl; [reflexivity | apply IH..].
Qed.

(** X15. While the destination is not available, ConsumeLogs queues:
    after consuming the logs [lds] the queue is the former queue followed
    by [lds] in the order consumed, the delivered count is unchanged and
    the destination is still unavailable. *)
Theorem unavailable_destination_queues (lds : list plog_Logs) :
  forall e : MockExporter.t,
    MockExporter.destAvailable e <> 1 ->
    MockExporter.Logs (exporterCalls e (consumeAll lds)) = MockExporter.Logs e ++ lds
    /\ DeliveredLogCount (exporterCalls e (consumeAll lds)) = DeliveredLogCount e
    /\ MockExporter.destAvailable (exporterCalls e (consumeAll lds))
       = MockExporter.destAvailable e.
Proof.
  induction lds as [|ld rest IH]; intros e Hne; simpl.
  - now rewrite app_nil_r.
  - assert (Hstep : ConsumeLogs e ld
                    = (None,
                       {| MockExporter.destAvailable := MockExporter.destAvailable e;
                          MockExporter.acceptedLogCount :=
                            atomic_AddInt64 (MockExporter.acceptedLogCount e)
                              (wrap64 (LogRecordCount ld));
                          MockExporter.deliveredLogCount :=
                            MockExporter.deliveredLogCount e;
                          MockExporter.Logs := MockExporter.Logs e ++ [ld] |})).
    { unfold ConsumeLogs. apply Z.eqb_neq in Hne. now rewrite Hne. }
    rewrite Hstep. simpl.
    match goal with
    | |- context [exporterCalls ?e1 (consumeAll rest)] =>
        destruct (IH e1 Hne) as [IHq [IHd IHa]]
    end.
    rewrite IHq, IHd, IHa. simpl. now rewrite <- app_assoc.
Qed.

Lemma available_keeps_delivered (lds : list plog_Logs) :
  forall e : MockExporter.t,
    MockExporter.destAvailable e = 1 ->
    MockExporter.deliveredLogCount e = MockExporter.acceptedLogCount e ->
    MockExporter.Logs e = [] ->
    MockExporter.destAvailable (exporterCalls e (consumeAll lds)) = 1
    /\ DeliveredLogCount (exporterCalls e (consumeAll lds))
       = AcceptedLogCount (exporterCalls e (consumeAll lds))
    /\ MockExporter.Logs (exporterCalls e (consumeAll lds)) = [].
Proof.
  induction lds as [|ld rest IH]; intros e Ha Hd Hq; simpl.
  - now split.
  - unfold ConsumeLogs. rewrite Ha. simpl.
    apply IH; simpl; [reflexivity | now rewrite Hd | exact Hq].
Qed.

(** X16. On a new exporter, logs consumed before the destination becomes
    available are queued and counted as delivered when SetDestAvailable
    (true) is called, which empties the queue; logs consumed after it are
    counted as delivered at once. After such a run the delivered count
    equals the accepted count and the queue is empty. *)
Theorem delivered_catches_up (before after : list plog_Logs) :
  DeliveredLogCount
    (exporterCalls NewMockExporter
       (consumeAll before ++ [CallSetDestAvailable true] ++ consumeAll after))
  = AcceptedLogCount
      (exporterCalls NewMockExporter
         (consumeAll before ++ [CallSetDestAvailable true] ++ consumeAll after))
  /\ MockExporter.Logs
       (exporterCalls NewMockExporter
          (consumeAll before ++ [CallSetDestAvailable true] ++ consumeAll after))
     = []
  /\ MockExporter.Logs (exporterCalls NewMockExporter (consumeAll before)) = before.
Proof.
  rewrite !exporterCalls_app. simpl.
  destruct (unavailable_destination_queues before NewMockExporter)
    as [Hq [Hd _]]; [simpl; lia|].
  pose proof (accepted_in_range (consumeAll before) NewMockExporter) as Hrange.
  set (e1 := exporterCalls NewMockExporter (consumeAll before)) in *.
  destruct (available_keeps_delivered after (SetDestAvailable e1 true))
    as [_ [Hsame Hempty]]; simpl; try reflexivity.
  - unfold DeliveredLogCount in Hd. rewrite Hd. simpl.
    unfold atomic_AddInt64. rewrite wrap64_small; [lia|].
    apply Hrange. simpl. lia.
  - split; [exact Hsame|]. split; [exact Hempty | exact Hq].
Qed.

(** X17. SetDestAvailable(true) adds the whole accepted count to the
    delivered count each time it is called: on an exporter whose
    delivered count equals its accepted count it doubles the delivered
    count, which then exceeds the accepted count if any record was
    accepted. *)
Theorem SetDestAvailable_counts_again (e : MockExporter.t) :
  MockExporter.deliveredLogCount e = MockExporter.acceptedLogCount e ->
  0 < MockExporter.acceptedLogCount e < 2 ^ 62 ->
  DeliveredLogCount (SetDestAvailable e true) = 2 * AcceptedLogCount e
  /\ AcceptedLogCount (SetDestAvailable e true) = AcceptedLogCount e
  /\ AcceptedLogCount (SetDestAvailable e true)
     < DeliveredLogCount (SetDestAvailable e true).
Proof.
  intros Hsame Hrange. unfold SetDestAvailable, DeliveredLogCount, AcceptedLogCount.
  simpl. unfold atomic_AddInt64. rewrite Hsame, wrap64_small; lia.
Qed.

End MockExporterProperties.

(** ** The further properties on the samples *)


Lemma negative_interval_reloads_every_call_witness :
  value (newCertReloader "cert.pem" "key.pem" (-5)) (envAt 0 diskA)
  = (Some eagerReloader, None)
  /\ clockFrom (Now (envAt 0 diskA)) [envAt 0 diskA; envAt 1 diskB]
  /\ Forall (fun res => In (EvReadFile "cert.pem") (snd res))
       (callResults eagerReloader [envAt 0 diskA; envAt 1 diskB])
  /\ length (callResults eagerReloader [envAt 0 diskA; envAt 1 diskB]) = 2%nat.
Proof.
  assert (Hclock : clockFrom (Now (envAt 0 diskA)) [envAt 0 diskA; envAt 1 diskB]).
  { simpl. repeat split; lia. }
  split; [reflexivity|]. split; [exact Hclock|].
  apply (@negative_interval_reloads_every_call sampleLib "cert.pem" "key.pem" (-5)
           (envAt 0 diskA) eagerReloader [envAt 0 diskA; envAt 1 diskB]);
    [reflexivity | lia | exact Hclock].
Defined.

Lemma GetCertificate_certificate_xor_error_witness :
  certReloader.cert builtReloader = Some certA
  /\ ((exists c,
          fst (value (GetCertificate (calls builtReloader [envAt 6 diskB]))
                 (envAt 20 diskNone)) = (Some c, None)
          /\ certReloader.cert
               (snd (value (GetCertificate (calls builtReloader [envAt 6 diskB]))
                       (envAt 20 diskNone))) = Some c)
      \/ (exists err,
             fst (value (GetCertificate (calls builtReloader [envAt 6 diskB]))
                    (envAt 20 diskNone)) = (None, Some err))).
Proof.
  split; [reflexivity|].
  apply (@GetCertificate_certificate_xor_error sampleLib builtReloader certA
           [envAt 6 diskB] (envAt 20 diskNone)).
  reflexivity.
Defined.

Lemma loadCert_outcomes_witness :
  value (@TLSSetting_loadCert sampleLib sampleSetting "ca.pem") (envAt 0 diskA)
  = (Some [pem "CA"], None)
  /\ value (@TLSSetting_loadCert sampleLib sampleSetting "missing.pem") (envAt 0 diskA)
     = (None, Some (fmt_Errorf_s_w "failed to load CA" "missing.pem" noSuchFile)).
Proof.
  destruct (@loadCert_outcomes sampleLib sampleSetting "ca.pem" (envAt 0 diskA))
    as [_ [_ [_ Hok]]].
  destruct (@loadCert_outcomes sampleLib sampleSetting "missing.pem" (envAt 0 diskA))
    as [_ [Hmissing _]].
  split.
  - apply (Hok (pem "CA")); reflexivity.
  - apply Hmissing. reflexivity.
Defined.

Lemma loadTLSConfig_succeeds_iff_witness :
  exists cfg,
    value (@TLSSetting_loadTLSConfig sampleLib invertedSetting) (envAt 0 diskNone)
    = (Some cfg, None)
    /\ tls.MinVersion cfg = tls.VersionTLS13
    /\ tls.MaxVersion cfg = tls.VersionTLS10
    /\ tls.MaxVersion cfg < tls.MinVersion cfg.
Proof.
  destruct (proj2 (@loadTLSConfig_succeeds_iff sampleLib invertedSetting
                     (envAt 0 diskNone))) as [cfg Hcfg].
  { split; [now left|]. split.
    - intros [[_ Hk] | [Hc _]]; [apply Hk | apply Hc]; reflexivity.
    - split; [now left|]. split; eexists; reflexivity. }
  exists cfg. split; [exact Hcfg|].
  vm_compute in Hcfg. inversion Hcfg. repeat split.
Defined.

Lemma loadTLSConfig_read_order_witness :
  exists cfg,
    value (@TLSSetting_loadTLSConfig sampleLib (ClientTLSSetting secureClient))
      (envAt 0 diskA) = (Some cfg, None)
    /\ events (@TLSSetting_loadTLSConfig sampleLib (ClientTLSSetting secureClient))
         (envAt 0 diskA)
       = [EvReadFile "ca.pem"; EvReadFile "cert.pem"; EvReadFile "key.pem"].
Proof.
  eexists. split; [reflexivity|].
  exact (@loadTLSConfig_read_order sampleLib (ClientTLSSetting secureClient)
           (envAt 0 diskA) _ eq_refl).
Defined.

Lemma version_errors_come_last_witness :
  ~ incompleteCredentials badMinSetting
  /\ value (@TLSSetting_loadTLSConfig sampleLib badMinSetting) (envAt 0 diskA)
     = (None, Some (fmt_Errorf_w "invalid TLS min_version"
                      (fmt_Errorf_q "unsupported TLS version" "1.4")))
  /\ events (@TLSSetting_loadTLSConfig sampleLib badMinSetting) (envAt 0 diskA)
     = [EvReadFile "ca.pem"; EvReadFile "cert.pem"; EvReadFile "key.pem"]
  /\ value (@TLSSetting_loadTLSConfig sampleLib badMinSetting) (envAt 0 diskB)
     = (None, Some (fmt_Errorf_w "invalid TLS min_version"
                      (fmt_Errorf_q "unsupported TLS version" "1.4"))).
Proof.
  assert (Hpair : ~ incompleteCredentials badMinSetting).
  { intros [[Hc _] | [_ Hk]]; discriminate. }
  assert (Hca : forall disk,
             disk "ca.pem" = inl (pem "CA") ->
             CAFile badMinSetting = ""
             \/ exists pool,
                 value (@TLSSetting_loadCert sampleLib badMinSetting
                          (CAFile badMinSetting)) (envAt 0 disk) = (Some pool, None)).
  { intros disk Hdisk. right. exists [pem "CA"].
    unfold value, TLSSetting_loadCert, bind, os_ReadFile, ret. simpl.
    now rewrite Hdisk. }
  destruct (@version_errors_come_last sampleLib badMinSetting (envAt 0 diskA)
              (Hca diskA eq_refl) Hpair) as [_ [HminA _]].
  destruct (@version_errors_come_last sampleLib badMinSetting (envAt 0 diskB)
              (Hca diskB eq_refl) Hpair) as [_ [HminB _]].
  split; [exact Hpair|].
  destruct (HminA 0 (fmt_Errorf_q "unsupported TLS version" "1.4")) as [Hval Hev];
    [right; eexists; reflexivity | reflexivity |].
  split; [exact Hval|]. split; [exact Hev|].
  apply (HminB 0 (fmt_Errorf_q "unsupported TLS version" "1.4"));
    [right; eexists; reflexivity | reflexivity].
Defined.

Lemma insecure_ignored_with_CA_witness :
  CAFile (ClientTLSSetting secureClient) <> ""
  /\ @TLSClientSetting_LoadTLSConfig sampleLib (withInsecure secureClient true)
       (envAt 0 diskA)
     = @TLSClientSetting_LoadTLSConfig sampleLib secureClient (envAt 0 diskA).
Proof.
  split; [discriminate|].
  apply (@insecure_ignored_with_CA sampleLib secureClient true (envAt 0 diskA)).
  discriminate.
Defined.

Lemma server_adds_nothing_witness :
  @TLSServerSetting_LoadTLSConfig sampleLib (withReloadClientCAFile plainServer true)
    (envAt 0 diskA)
  = @TLSServerSetting_LoadTLSConfig sampleLib plainServer (envAt 0 diskA)
  /\ events (@TLSServerSetting_LoadTLSConfig sampleLib plainServer) (envAt 0 diskA)
     = [EvReadFile "cert.pem"; EvReadFile "key.pem"]
  /\ @TLSServerSetting_LoadTLSConfig sampleLib (mtlsServer true) (envAt 0 diskNone)
     = (None,
        Some (fmt_Errorf_w "failed to load TLS config"
                (fmt_Errorf_w "failed to load TLS cert and key" noSuchFile)),
        [EvReadFile "cert.pem"]).
Proof.
  destruct (@server_adds_nothing sampleLib plainServer true (envAt 0 diskA))
    as [_ Hplain].
  destruct (@server_adds_nothing sampleLib (mtlsServer true) true (envAt 0 diskNone))
    as [Hfailed _].
  split; [|split].
  - exact (proj2 (Hplain _ eq_refl eq_refl)).
  - unfold events. now rewrite (proj1 (Hplain _ eq_refl eq_refl)).
  - exact (proj1 (Hfailed None _ eq_refl)).
Defined.

Lemma convertVersion_one_to_one_witness :
  convertVersion "1.2" defaultMinTLSVersion = (tls.VersionTLS12, None)
  /\ convertVersion "1.2" defaultMaxTLSVersion = (tls.VersionTLS12, None)
  /\ tls.VersionTLS10 <= tls.VersionTLS12 <= tls.VersionTLS13
  /\ 0 <= tls.VersionTLS12 < 2 ^ 16.
Proof.
  split; [reflexivity|]. split; [reflexivity|].
  apply (convertVersion_one_to_one "1.2" "1.2" defaultMinTLSVersion
           defaultMaxTLSVersion tls.VersionTLS12); try discriminate; reflexivity.
Defined.

Lemma built_context_serves_loaded_identity_witness :
  exists cfg r,
    value (@TLSSetting_loadTLSConfig sampleLib sampleSetting) (envAt 0 diskA)
    = (Some cfg, None)
    /\ tls.GetCertificate cfg = Some r
    /\ tls.GetClientCertificate cfg = Some r
    /\ GetCertificate r (envAt 5 diskB) = (Some certA, None, r, []).
Proof.
  destruct (@built_context_serves_loaded_identity sampleLib sampleSetting
              (envAt 0 diskA) _ eq_refl ltac:(discriminate))
    as [r [crt [Hget [Hgetc [_ [_ [_ [Hload Hserve]]]]]]]].
  eexists. exists r. split; [reflexivity|]. split; [exact Hget|].
  split; [exact Hgetc|].
  vm_compute in Hload. inversion Hload; subst crt.
  apply Hserve. right. vm_compute. discriminate.
Defined.

Lemma calls_block_only_during_reload_witness :
  exists s s',
    run (start builtReloader 2) (firstn 4 twoCallers) = Some s
    /\ readers (lock (shared s)) = 2%nat
    /\ count announced (threads s) = 0%nat
    /\ step s 1 (envAt 7 diskB) = Some s'.
Proof.
  eexists.
  assert (Hrun : run (start builtReloader 2) (firstn 4 twoCallers)
                 = Some {| shared := {| reloader := builtReloader;
                                        lock := {| readers := 2; writing := false |};
                                        stores := [] |};
                           threads := [AtDueTest 6; AtDueTest 7] |})
    by reflexivity.
  destruct (@calls_block_only_during_reload sampleLib builtReloader certA 2
              (firstn 4 twoCallers) _ 1%nat (AtDueTest 7) (envAt 7 diskB)
              eq_refl Hrun eq_refl eq_refl eq_refl) as [s' Hstep].
  exists s'. split; [exact Hrun|]. split; [reflexivity|]. split; [reflexivity|].
  exact Hstep.
Defined.

Lemma each_call_stores_at_most_once_witness :
  run (start builtReloader 2) twoCallers = Some twoCallersEnd
  /\ NoDup (storers (stores (shared twoCallersEnd)))
  /\ (length (stores (shared twoCallersEnd)) <= 2)%nat.
Proof.
  split; [reflexivity|].
  destruct (@each_call_stores_at_most_once sampleLib builtReloader 2 twoCallers
              twoCallersEnd eq_refl) as [Honce [Hbound _]].
  split; [exact Honce | exact Hbound].
Defined.

Lemma lock_free_when_all_returned_witness :
  run (start builtReloader 2) twoCallers = Some twoCallersEnd
  /\ allReturned twoCallersEnd
  /\ lock (shared twoCallersEnd) = {| readers := 0; writing := false |}.
Proof.
  split; [reflexivity|]. split; [reflexivity|].
  apply (@lock_free_when_all_returned sampleLib builtReloader certA 2 twoCallers
           twoCallersEnd); reflexivity.
Defined.

Lemma unavailable_destination_queues_witness :
  MockExporter.destAvailable (@NewMockExporter sampleLogs) <> 1
  /\ MockExporter.Logs (exporterCalls (@NewMockExporter sampleLogs)
                          (@consumeAll sampleLogs [3; 4]))
     = [3; 4]
  /\ DeliveredLogCount (exporterCalls (@NewMockExporter sampleLogs)
                          (@consumeAll sampleLogs [3; 4])) = 0.
Proof.
  split; [discriminate|].
  destruct (@unavailable_destination_queues sampleLogs [3; 4]
              (@NewMockExporter sampleLogs) ltac:(discriminate)) as [Hq [Hd _]].
  split; [exact Hq | exact Hd].
Defined.

Lemma SetDestAvailable_counts_again_witness :
  DeliveredLogCount
    (SetDestAvailable
       (exporterCalls (@NewMockExporter sampleLogs)
          [CallSetDestAvailable true; @CallConsumeLogs sampleLogs 5]) true)
  = 10
  /\ AcceptedLogCount
       (SetDestAvailable
          (exporterCalls (@NewMockExporter sampleLogs)
             [CallSetDestAvailable true; @CallConsumeLogs sampleLogs 5]) true)
     = 5.
Proof.
  destruct (@SetDestAvailable_counts_again sampleLogs
              (exporterCalls (@NewMockExporter sampleLogs)
                 [CallSetDestAvailable true; @CallConsumeLogs sampleLogs 5])
              eq_refl ltac:(vm_compute; split; reflexivity)) as [Hd [Ha _]].
  split; [exact Hd | exact Ha].
Defined.
